(** * logzio-python-handler: the sender's delivery pipeline

    A shallow embedding of [logzio/sender.py]: the queue of serialised
    log entries, the size-bounded bulk assembly, the retry loop around
    the HTTP POST, the backup file written when every try failed, and
    the background drain loop.

    Python code that talks to the outside (the HTTP session, the clock,
    the file system, the logger, the thread registry) is run in a small
    state-and-exception monad over a [World]; every outside call leaves
    an [Event] in the world's trace, so that "how many POSTs", "which
    sleeps" and "what was written" are statements about the trace. *)

From Stdlib Require Import ZArith NArith Lia String Ascii List DecimalString.
From stdpp Require Import base list strings gmap.

Open Scope string_scope.
Open Scope list_scope.
Set Warnings "-register-all".

(** ** Data *)

(** A queue element: the text [json.dumps] produced for one message. *)
Definition LogEntry := string.

(** The separator of ['\n'.join(...)]. *)
Definition newline : string := String "010" EmptyString.

(** [sep.join(l)] of Python is [String.concat sep l]. *)
Definition join (sep : string) (l : list string) : string := String.concat sep l.

(** The objects a caller can hand to [append], as trees (an object that
    contains itself is not among them).  A float is kept by the text the
    encoder prints for it ([float.__repr__], or [NaN], [Infinity],
    [-Infinity]), a datetime by an instant in seconds; [PyObject cls] is
    an instance of a class that is none of these nor derived from one
    (a set, bytes, a user class, ...). *)
Inductive PyObj :=
| PyNone
| PyBool (b : bool)
| PyInt (z : Z)
| PyFloat (repr : string)
| PyStr (s : string)
| PyList (items : list PyObj)
| PyTuple (items : list PyObj)
| PyDict (items : list (PyObj * PyObj))
| PyDatetime (instant : N)
| PyObject (cls : string).

Inductive Exception :=
| TypeError (msg : string)
| ValueError (msg : string)
| RecursionError (msg : string)
| RequestException (msg : string)
| OSError (filename : string).

(** What [requests_session.post] gives back. *)
Record Response := mkResponse { status_code : Z; text : string }.

(** What the endpoint does with one POST: it answers, or the call raises
    (connection refused, timeout, ...). *)
Inductive Reply :=
| Answered (response : Response)
| Failed (msg : string).

Inductive Level := DEBUG | INFO | WARNING | ERROR.

(** The messages of [sender.py], one constructor per call of the logger,
    with the arguments of its format string. *)
Inductive Message :=
| BackingUpYourLogs (timestamp : string)
| IdentifiedQuitOfMainThread
| UnexpectedException (e : Exception)
| StartingToDrain (n : nat)
| Got400 (response_text : string)
| NotAuthorized
| GotStatus (status : Z) (try total : Z) (response_text : string)
| SuccessfullySent (n : nat)
| GotException (try total : Z) (e : Exception)
| CouldNotSend (tries : Z).

Record Request := mkRequest {
  target : string;
  headers : list (string * string);
  data : string;
  timeout : N
}.

Inductive Event :=
| Log (level : Level) (msg : Message)
| Post (request : Request) (reply : Reply)
| Sleep (seconds : N)
| Write (filename : string) (contents : string)
| ThreadStart.

(** The attributes of a [LogzioSender], read as [self.queue s] and so on. *)
Module self.

Record t := mk {
  token : string;
  url : string;
  logs_drain_timeout : N;
  backup_logs : bool;
  network_timeout : N;
  number_of_retries : Z;
  retry_timeout : N;
  queue : list LogEntry;
  sending_thread_is_alive : bool
}.

Definition with_queue (q : list LogEntry) (s : t) : t :=
  mk (token s) (url s) (logs_drain_timeout s) (backup_logs s)
     (network_timeout s) (number_of_retries s) (retry_timeout s)
     q (sending_thread_is_alive s).

Definition with_thread (alive : bool) (s : t) : t :=
  mk (token s) (url s) (logs_drain_timeout s) (backup_logs s)
     (network_timeout s) (number_of_retries s) (retry_timeout s)
     (queue s) alive.

End self.

Definition LogzioSender := self.t.

(** The sender together with everything around it.  [transport],
    [main_thread] and [open_denied] are the behaviour of the outside: the
    reply to the k-th POST, the answer to the k-th liveness check, and
    the file names [open] refuses. *)
Record World := mkWorld {
  sender : LogzioSender;
  now : N;
  files : gmap string string;
  trace : list Event;
  posts : nat;
  checks : nat;
  transport : nat -> Reply;
  main_thread : nat -> bool;
  open_denied : string -> bool
}.

Definition set_sender (s : LogzioSender) (w : World) : World :=
  mkWorld s (now w) (files w) (trace w) (posts w) (checks w)
          (transport w) (main_thread w) (open_denied w).

Definition set_now (t : N) (w : World) : World :=
  mkWorld (sender w) t (files w) (trace w) (posts w) (checks w)
          (transport w) (main_thread w) (open_denied w).

Definition set_files (fs : gmap string string) (w : World) : World :=
  mkWorld (sender w) (now w) fs (trace w) (posts w) (checks w)
          (transport w) (main_thread w) (open_denied w).

Definition set_posts (n : nat) (w : World) : World :=
  mkWorld (sender w) (now w) (files w) (trace w) n (checks w)
          (transport w) (main_thread w) (open_denied w).

Definition set_checks (n : nat) (w : World) : World :=
  mkWorld (sender w) (now w) (files w) (trace w) (posts w) n
          (transport w) (main_thread w) (open_denied w).

Definition emit (e : Event) (w : World) : World :=
  mkWorld (sender w) (now w) (files w) (trace w ++ [e]) (posts w) (checks w)
          (transport w) (main_thread w) (open_denied w).

(** ** The monad: state, exceptions, and fuel for the unbounded loop *)

Inductive Result (A : Type) :=
| Ok (a : A)
| Raise (e : Exception)
| OutOfFuel.
Arguments Ok {A} a.
Arguments Raise {A} e.
Arguments OutOfFuel {A}.

Definition M (A : Type) : Type := World -> Result A * World.

Definition ret {A} (a : A) : M A := fun w => (Ok a, w).

Definition bind {A B} (c : M A) (k : A -> M B) : M B :=
  fun w =>
    match c w with
    | (Ok a, w') => k a w'
    | (Raise e, w') => (Raise e, w')
    | (OutOfFuel, w') => (OutOfFuel, w')
    end.

Definition raise {A} (e : Exception) : M A := fun w => (Raise e, w).

(** [try: body  except Exception as e: handler e]. *)
Definition try_except {A} (body : M A) (handler : Exception -> M A) : M A :=
  fun w =>
    match body w with
    | (Raise e, w') => handler e w'
    | r => r
    end.

Definition gets {A} (f : World -> A) : M A := fun w => (Ok (f w), w).
Definition modify (f : World -> World) : M unit := fun w => (Ok tt, f w).

Declare Scope py_scope.
Delimit Scope py_scope with py.
Notation "x <- c ;; k" := (bind c (fun x => k))
  (at level 100, c at next level, right associativity) : py_scope.
Notation "c ;;; k" := (bind c (fun _ => k))
  (at level 100, right associativity) : py_scope.
Open Scope py_scope.

(** The outside calls. *)
Definition log (level : Level) (msg : Message) : M unit :=
  modify (emit (Log level msg)).

Definition sleep (seconds : N) : M unit :=
  modify (fun w => emit (Sleep seconds) (set_now (now w + seconds)%N w)).

(** ** What the interpreter and the libraries provide

    [getsizeof] is [sys.getsizeof] on a [str], [None] where it raises
    [TypeError] (PyPy); [strftime] is
    [datetime.strftime('%d%m%Y-%H%M%S')] of the instant on the clock;
    [isoformat] is [datetime.isoformat]; [JSONEncoder_encode] is
    [json.JSONEncoder.encode], the library's encoder, run with the
    [default] method of the subclass it is given: it returns the text or
    raises ([TypeError], [ValueError], [RecursionError], ...);
    [PACKAGE_VERSION] is what [importlib.metadata.version] reports. *)
Class Platform := {
  getsizeof : string -> option N;
  strftime : N -> string;
  isoformat : N -> string;
  JSONEncoder_encode : (PyObj -> Exception + string) -> PyObj -> Exception + string;
  PACKAGE_VERSION : string
}.

Definition PACKAGE_NAME : string := "logzio-python-handler".
Definition MAX_BULK_SIZE_IN_BYTES : N := 1 * 1024 * 1024.

Section Sender.
Context {platform : Platform}.

Definition SHIPPER_HEADER : list (string * string) :=
  [("user-agent", PACKAGE_NAME +:+ "-version-" +:+ PACKAGE_VERSION +:+ "-logs")].

(** ** json.dumps(logs_message, cls=CustomJSONEncoder) *)

Definition class_name (o : PyObj) : string :=
  match o with
  | PyNone => "NoneType"
  | PyBool _ => "bool"
  | PyInt _ => "int"
  | PyFloat _ => "float"
  | PyStr _ => "str"
  | PyList _ => "list"
  | PyTuple _ => "tuple"
  | PyDict _ => "dict"
  | PyDatetime _ => "datetime"
  | PyObject cls => cls
  end.

(** [json.JSONEncoder.default]: the base class refuses every object. *)
Definition JSONEncoder_default (o : PyObj) : Exception + string :=
  inl (TypeError ("Object of type " +:+ class_name o +:+ " is not JSON serializable")).

(** [CustomJSONEncoder.default]. *)
Definition default (o : PyObj) : Exception + string :=
  match o with
  | PyDatetime instant => inr (isoformat instant)
  | _ => JSONEncoder_default o
  end.

(** [json.dumps(logs_message, cls=CustomJSONEncoder)]: the library's
    encoder with [CustomJSONEncoder.default] as its [default]. *)
Definition dumps (logs_message : PyObj) : Exception + string :=
  JSONEncoder_encode default logs_message.

Definition json_dumps (logs_message : PyObj) : M string :=
  match dumps logs_message with
  | inl e => raise e
  | inr s => ret s
  end.

(** ** backup_logs *)

(** What a file holds; a file that does not exist yet holds nothing. *)
Definition file_contents (fs : gmap string string) (filename : string) : string :=
  match fs !! filename with
  | Some s => s
  | None => EmptyString
  end.

(** [with open(filename, 'a') as f: f.writelines(contents)]: the file is
    created when missing, the characters go after what it holds. *)
Definition open_append_writelines (filename contents : string) : M unit :=
  fun w =>
    if open_denied w filename then raise (OSError filename) w
    else
      let old := file_contents (files w) filename in
      (Ok tt, emit (Write filename contents)
                   (set_files (<[filename := old +:+ contents]> (files w)) w)).

Definition backup_logs (logs : list LogEntry) : M unit :=
  timestamp <- gets (fun w => strftime (now w));;
  log INFO (BackingUpYourLogs timestamp);;;
  open_append_writelines ("logzio-failures-" +:+ timestamp +:+ ".txt")
                         (join newline logs).

(** ** LogzioSender *)

Definition _initialize_sending_thread : M unit :=
  modify (fun w => emit ThreadStart (set_sender (self.with_thread true (sender w)) w)).

(** [__init__]: the attributes, then the sending thread is started. *)
Definition __init__ (token url : string) (logs_drain_timeout : N)
    (debug backup_logs : bool) (network_timeout : N)
    (number_of_retries : Z) (retry_timeout : N) : M unit :=
  modify (set_sender
            (self.mk token (url +:+ "/?token=" +:+ token) logs_drain_timeout
                     backup_logs network_timeout number_of_retries
                     retry_timeout [] false));;;
  _initialize_sending_thread.

Definition queue_put (entry : LogEntry) : M unit :=
  modify (fun w => set_sender (self.with_queue (self.queue (sender w) ++ [entry]) (sender w)) w).

Definition append (logs_message : PyObj) : M unit :=
  alive <- gets (fun w => self.sending_thread_is_alive (sender w));;
  (if negb alive then _initialize_sending_thread else ret tt);;;
  entry <- json_dumps logs_message;;
  queue_put entry.

(** The size added for one entry: [sys.getsizeof], or four times the
    length where that raises [TypeError]. *)
Definition size_of_log (current_log : LogEntry) : N :=
  match getsizeof current_log with
  | Some n => n
  | None => (N.of_nat (String.length current_log) * 4)%N
  end.

(** The loop of [_get_messages_up_to_max_allowed_size] over the queue's
    content; it gives [logs_list] and what stays in the queue. *)
Fixpoint take_up_to (cap : N) (q logs_list : list LogEntry) (current_size : N)
    : list LogEntry * list LogEntry :=
  match q with
  | [] => (logs_list, [])
  | current_log :: q' =>
      let current_size := (current_size + size_of_log current_log)%N in
      let logs_list := logs_list ++ [current_log] in
      if (cap <=? current_size)%N then (logs_list, q')
      else take_up_to cap q' logs_list current_size
  end.

Definition _get_messages_up_to_max_allowed_size : M (list LogEntry) :=
  fun w =>
    let '(logs_list, rest) :=
      take_up_to MAX_BULK_SIZE_IN_BYTES (self.queue (sender w)) [] 0 in
    (Ok logs_list, set_sender (self.with_queue rest (sender w)) w).

Definition requests_post (request : Request) : M Response :=
  fun w =>
    let reply := transport w (posts w) in
    let w' := emit (Post request reply) (set_posts (S (posts w)) w) in
    match reply with
    | Answered response => (Ok response, w')
    | Failed msg => (Raise (RequestException msg), w')
    end.

(** How one pass through the body of the [for] loop ends. *)
Inductive Flow :=
| break_ (should_backup_to_disk : bool)
| next_ (should_retry : bool).

Definition range (n : Z) : list Z := map Z.of_nat (seq 0 (Z.to_nat n)).

(** [for current_try in range(self.number_of_retries): ...]; the value
    is [should_backup_to_disk] when the loop is left. *)
Fixpoint for_current_try (tries : list Z) (logs_list : list LogEntry)
    (hdrs : list (string * string)) (sleep_between_retries : N)
    (should_backup_to_disk : bool) : M bool :=
  match tries with
  | [] => ret should_backup_to_disk
  | current_try :: tries' =>
      flow <-
        try_except
          (s <- gets sender;;
           response <- requests_post
                         (mkRequest (self.url s) hdrs (join newline logs_list)
                                    (self.network_timeout s));;
           if negb (status_code response =? 200)%Z then
             if (status_code response =? 400)%Z then
               log INFO (Got400 (text response));;;
               ret (break_ false)
             else if (status_code response =? 401)%Z then
               log INFO NotAuthorized;;;
               ret (break_ false)
             else
               log INFO (GotStatus (status_code response) (current_try + 1)
                                   (self.number_of_retries s) (text response));;;
               ret (next_ true)
           else
             log DEBUG (SuccessfullySent (length logs_list));;;
             ret (break_ false))
          (fun e =>
             s <- gets sender;;
             log WARNING (GotException (current_try + 1) (self.number_of_retries s) e);;;
             ret (next_ true));;
      match flow with
      | break_ b => ret b
      | next_ should_retry =>
          (if should_retry then sleep sleep_between_retries else ret tt);;;
          for_current_try tries' logs_list hdrs sleep_between_retries
                          should_backup_to_disk
      end
  end.

(** The body of the [while] loop of [_flush_queue] once [logs_list] has
    been taken from the queue. *)
Definition drain_logs_list (logs_list : list LogEntry) : M unit :=
  log DEBUG (StartingToDrain (length logs_list));;;
  sleep_between_retries <- gets (fun w => self.retry_timeout (sender w));;
  number_of_retries <- gets (fun w => self.number_of_retries (sender w));;
  let should_backup_to_disk := true in
  let hdrs := ("Content-type", "text/plain") :: SHIPPER_HEADER in
  should_backup_to_disk <-
    for_current_try (range number_of_retries) logs_list hdrs
                    sleep_between_retries should_backup_to_disk;;
  backup <- gets (fun w => self.backup_logs (sender w));;
  if should_backup_to_disk && backup then
    log ERROR (CouldNotSend number_of_retries);;;
    backup_logs logs_list
  else ret tt.

(** [while not self.queue.empty(): ...]. *)
Fixpoint while_queue_not_empty (fuel : nat) : M unit :=
  fun w =>
    match self.queue (sender w) with
    | [] => (Ok tt, w)
    | _ :: _ =>
        match fuel with
        | O => (OutOfFuel, w)
        | S fuel' =>
            (logs_list <- _get_messages_up_to_max_allowed_size;;
             drain_logs_list logs_list;;;
             while_queue_not_empty fuel') w
        end
    end.

(** Every pass takes at least one entry, so the length of the queue is
    fuel enough (see [_flush_queue_returns]). *)
Definition _flush_queue : M unit :=
  fun w => while_queue_not_empty (length (self.queue (sender w))) w.

Definition flush : M unit := _flush_queue.

Definition is_main_thread_active : M bool :=
  fun w => (Ok (main_thread w (checks w)), set_checks (S (checks w)) w).

(** [while not last_try: ...]; the loop has no bound of its own, so the
    model takes [fuel], the number of passes it may make. *)
Fixpoint while_not_last_try (fuel : nat) (last_try : bool) : M unit :=
  if last_try then ret tt
  else
    match fuel with
    | O => fun w => (OutOfFuel, w)
    | S fuel' =>
        active <- is_main_thread_active;;
        last_try <-
          (if negb active then
             log DEBUG IdentifiedQuitOfMainThread;;;
             ret true
           else ret last_try);;
        try_except _flush_queue
                   (fun e => log DEBUG (UnexpectedException e));;;
        (if negb last_try
         then sleep_drain <- gets (fun w => self.logs_drain_timeout (sender w));;
              sleep sleep_drain
         else ret tt);;;
        while_not_last_try fuel' last_try
    end.

Definition _drain_queue (fuel : nat) : M unit :=
  let last_try := false in
  while_not_last_try fuel last_try.

End Sender.

(** ** A concrete platform

    CPython on a 64-bit machine, the clock read as UTC: a compact ASCII
    [str] takes 49 bytes plus one per character, the timestamp is the
    civil date of the instant, and [json] is the C encoder with the
    options [json.dumps] passes by default ([ensure_ascii] on, no
    indent, [skipkeys] off). *)

Definition digits (n : N) : string := NilZero.string_of_uint (N.to_uint n).

Fixpoint zero_pad (width : nat) (s : string) : string :=
  match width with
  | O => s
  | S width' =>
      if (String.length s <? S width')%nat then zero_pad width' ("0" +:+ s)
      else s
  end.

Definition pad (width : nat) (n : N) : string := zero_pad width (digits n).

(** Year, month and day of the day that is [days] after 1 January 1970. *)
Definition civil_from_days (days : N) : N * N * N :=
  let z := (days + 719468)%N in
  let era := (z / 146097)%N in
  let doe := (z - era * 146097)%N in
  let yoe := ((doe - doe / 1460 + doe / 36524 - doe / 146096) / 365)%N in
  let doy := (doe - (365 * yoe + yoe / 4 - yoe / 100))%N in
  let mp := ((5 * doy + 2) / 153)%N in
  let d := (doy - (153 * mp + 2) / 5 + 1)%N in
  let m := (if mp <? 10 then mp + 3 else mp - 9)%N in
  let y := (yoe + era * 400 + (if m <=? 2 then 1 else 0))%N in
  (y, m, d).

Definition utc_strftime (instant : N) : string :=
  let '(y, m, d) := civil_from_days (instant / 86400) in
  let secs := (instant mod 86400)%N in
  pad 2 d +:+ pad 2 m +:+ pad 4 y +:+ "-" +:+
  pad 2 (secs / 3600) +:+ pad 2 (secs mod 3600 / 60) +:+ pad 2 (secs mod 60).

Definition utc_isoformat (instant : N) : string :=
  let '(y, m, d) := civil_from_days (instant / 86400) in
  let secs := (instant mod 86400)%N in
  pad 4 y +:+ "-" +:+ pad 2 m +:+ "-" +:+ pad 2 d +:+ "T" +:+
  pad 2 (secs / 3600) +:+ ":" +:+ pad 2 (secs mod 3600 / 60) +:+ ":" +:+
  pad 2 (secs mod 60).

Definition quote_char : ascii := ascii_of_nat 34.
Definition backslash : string := "\".

Definition hex_digit (n : nat) : string :=
  match get n "0123456789abcdef" with
  | Some c => String c EmptyString
  | None => "0"
  end.

Definition escape_char (c : ascii) : string :=
  let n := nat_of_ascii c in
  if (n =? 34)%nat then backslash +:+ String quote_char EmptyString
  else if (n =? 92)%nat then backslash +:+ backslash
  else if (n =? 10)%nat then backslash +:+ "n"
  else if (n =? 13)%nat then backslash +:+ "r"
  else if (n =? 9)%nat then backslash +:+ "t"
  else if (n =? 8)%nat then backslash +:+ "b"
  else if (n =? 12)%nat then backslash +:+ "f"
  else if ((n <? 32) || (126 <? n))%nat then
    backslash +:+ "u00" +:+ hex_digit (n / 16) +:+ hex_digit (n mod 16)
  else String c EmptyString.

Fixpoint escape (s : string) : string :=
  match s with
  | EmptyString => EmptyString
  | String c s' => escape_char c +:+ escape s'
  end.

Definition py_encode_basestring_ascii (s : string) : string :=
  String quote_char (escape s) +:+ String quote_char EmptyString.

(** [sys.get_int_max_str_digits()]: an [int] of more decimal digits is
    not converted to text (0 would switch the limit off). *)
Definition int_max_str_digits : N := 4300.

(** How many encoder calls may nest below [json.dumps] before the
    interpreter's recursion limit is reached.  The number depends on the
    interpreter and on the depth of the stack at the call; 1000 is
    [sys.getrecursionlimit()] as the interpreter starts. *)
Definition recursion_budget : nat := 1000.

(** [int.__repr__], which the encoder uses for an [int]. *)
Definition int_repr (z : Z) : Exception + string :=
  let s := NilZero.string_of_int (Z.to_int z) in
  let digits := N.of_nat (String.length s - (if (z <? 0)%Z then 1 else 0)) in
  if ((0 <? int_max_str_digits) && (int_max_str_digits <? digits))%N
  then inl (ValueError "Exceeds the limit (4300 digits) for integer string conversion; use sys.set_int_max_str_digits() to increase the limit")
  else inr s.

(** The text of a dict key; other keys are refused ([skipkeys] is off). *)
Definition key_text (k : PyObj) : Exception + string :=
  match k with
  | PyStr s => inr s
  | PyFloat repr => inr repr
  | PyBool true => inr "true"
  | PyBool false => inr "false"
  | PyNone => inr "null"
  | PyInt z => int_repr z
  | _ => inl (TypeError ("keys must be str, int, float, bool or None, not " +:+ class_name k))
  end.

Definition too_deep : Exception :=
  RecursionError "maximum recursion depth exceeded while encoding a JSON object".

(** The encoder's traversal ([encoder_listencode_obj] of [_json.c]): the
    built-in types are printed, a list, a tuple or a dict takes one level
    of the recursion budget, anything else goes through [default], whose
    result (a [str] here) is encoded one level down. *)
Fixpoint iterencode (default : PyObj -> Exception + string) (budget : nat)
    (o : PyObj) {struct o} : Exception + string :=
  match o with
  | PyNone => inr "null"
  | PyBool true => inr "true"
  | PyBool false => inr "false"
  | PyStr s => inr (py_encode_basestring_ascii s)
  | PyInt z => int_repr z
  | PyFloat repr => inr repr
  | PyList items | PyTuple items =>
      match budget with
      | O => inl too_deep
      | S budget' =>
          match
            (fix each (l : list PyObj) : Exception + list string :=
               match l with
               | [] => inr []
               | x :: l' =>
                   match iterencode default budget' x with
                   | inl e => inl e
                   | inr s =>
                       match each l' with
                       | inl e => inl e
                       | inr ss => inr (s :: ss)
                       end
                   end
               end) items
          with
          | inl e => inl e
          | inr ss => inr ("[" +:+ join ", " ss +:+ "]")
          end
      end
  | PyDict items =>
      match budget with
      | O => inl too_deep
      | S budget' =>
          match
            (fix each (l : list (PyObj * PyObj)) : Exception + list string :=
               match l with
               | [] => inr []
               | (k, v) :: l' =>
                   match key_text k with
                   | inl e => inl e
                   | inr ks =>
                       match iterencode default budget' v with
                       | inl e => inl e
                       | inr vs =>
                           match each l' with
                           | inl e => inl e
                           | inr ss =>
                               inr ((py_encode_basestring_ascii ks +:+ ": " +:+ vs) :: ss)
                           end
                       end
                   end
               end) items
          with
          | inl e => inl e
          | inr ss => inr ("{" +:+ join ", " ss +:+ "}")
          end
      end
  | PyDatetime _ | PyObject _ =>
      match default o with
      | inl e => inl e
      | inr s =>
          match budget with
          | O => inl too_deep
          | S _ => inr (py_encode_basestring_ascii s)
          end
      end
  end.

(** [json.JSONEncoder.encode] of CPython, with the options [json.dumps]
    passes by default. *)
Definition cpython_encode (default : PyObj -> Exception + string)
    (o : PyObj) : Exception + string :=
  iterencode default recursion_budget o.

#[export] Instance cpython : Platform := {|
  getsizeof := fun s => Some (49 + N.of_nat (String.length s))%N;
  strftime := utc_strftime;
  isoformat := utc_isoformat;
  JSONEncoder_encode := cpython_encode;
  PACKAGE_VERSION := "4.1.4"
|}.

(** ** Observations on entries, traces and replies *)

Section Observations.
Context {platform : Platform}.

(** The running total the assembler would reach over [l]. *)
Fixpoint bulk_size (l : list LogEntry) : N :=
  match l with
  | [] => 0
  | current_log :: l' => size_of_log current_log + bulk_size l'
  end.

Fixpoint count_events (p : Event -> bool) (tr : list Event) : nat :=
  match tr with
  | [] => 0
  | e :: tr' => (if p e then 1 else 0) + count_events p tr'
  end.

Definition is_post (e : Event) : bool :=
  match e with Post _ _ => true | _ => false end.

Definition is_sleep (e : Event) : bool :=
  match e with Sleep _ => true | _ => false end.

Definition is_write (e : Event) : bool :=
  match e with Write _ _ => true | _ => false end.

(** The three ways the loop reads a reply. *)
Inductive Reading := Accepted | Rejected | Transient.

Definition reading (r : Reply) : Reading :=
  match r with
  | Failed _ => Transient
  | Answered response =>
      if (status_code response =? 200)%Z then Accepted
      else if (status_code response =? 400)%Z then Rejected
      else if (status_code response =? 401)%Z then Rejected
      else Transient
  end.

(** The bodies of the POSTs the endpoint answered with 200, in order. *)
Fixpoint delivered_bodies (tr : list Event) : list string :=
  match tr with
  | [] => []
  | Post request reply :: tr' =>
      match reading reply with
      | Accepted => data request :: delivered_bodies tr'
      | _ => delivered_bodies tr'
      end
  | _ :: tr' => delivered_bodies tr'
  end.

(** The headers and the request the loop sends for [logs_list]. *)
Definition sent_headers : list (string * string) :=
  ("Content-type", "text/plain") :: SHIPPER_HEADER.

Definition request_for (s : LogzioSender) (logs_list : list LogEntry) : Request :=
  mkRequest (self.url s) sent_headers (join newline logs_list)
            (self.network_timeout s).

(** What the loop logs for a try that will be repeated. *)
Definition failure_log (s : LogzioSender) (current_try : Z) (r : Reply) : Event :=
  match r with
  | Answered response =>
      Log INFO (GotStatus (status_code response) (current_try + 1)
                          (self.number_of_retries s) (text response))
  | Failed msg =>
      Log WARNING (GotException (current_try + 1) (self.number_of_retries s)
                                (RequestException msg))
  end.

(** The world after the POST that is due in [w]. *)
Definition posted (logs_list : list LogEntry) (w : World) : World :=
  emit (Post (request_for (sender w) logs_list) (transport w (posts w)))
       (set_posts (S (posts w)) w).

Definition slept (seconds : N) (w : World) : World :=
  emit (Sleep seconds) (set_now (now w + seconds)%N w).

(** The world after every try in [tries] has been made and has failed
    in a way the loop retries, and the events those tries leave. *)
Fixpoint after_failed_tries (logs_list : list LogEntry) (d : N)
    (tries : list Z) (w : World) : World :=
  match tries with
  | [] => w
  | current_try :: tries' =>
      after_failed_tries logs_list d tries'
        (slept d (emit (failure_log (sender w) current_try (transport w (posts w)))
                       (posted logs_list w)))
  end.

Fixpoint retry_events (s : LogzioSender) (logs_list : list LogEntry) (d : N)
    (replies : nat -> Reply) (k : nat) (tries : list Z) : list Event :=
  match tries with
  | [] => []
  | current_try :: tries' =>
      Post (request_for s logs_list) (replies k)
      :: failure_log s current_try (replies k)
      :: Sleep d
      :: retry_events s logs_list d replies (S k) tries'
  end.

(** The name of the backup file written at instant [t]. *)
Definition backup_file (t : N) : string :=
  "logzio-failures-" +:+ strftime t +:+ ".txt".

(** What no call of the sender changes: the behaviour of the outside,
    the count of liveness checks unless the drain loop makes one, and
    every attribute of the sender but its queue. *)
Definition same_surroundings (w w' : World) : Prop :=
  transport w' = transport w /\
  main_thread w' = main_thread w /\
  open_denied w' = open_denied w /\
  sender w' = self.with_queue (self.queue (sender w')) (sender w).

(** The lines of a text: the pieces between newlines. *)
Fixpoint lines_of (s : string) : list string :=
  match s with
  | EmptyString => [EmptyString]
  | String c s' =>
      if Ascii.eqb c "010" then EmptyString :: lines_of s'
      else match lines_of s' with
           | [] => [String c EmptyString]
           | l :: ls => String c l :: ls
           end
  end.

(** The bulks the assembler cuts from the queue when it is called until
    the queue is empty, at most [fuel] times. *)
Fixpoint bulks (fuel : nat) (w : World) : list (list LogEntry) :=
  match fuel with
  | O => []
  | S fuel' =>
      match self.queue (sender w) with
      | [] => []
      | _ :: _ =>
          match _get_messages_up_to_max_allowed_size w with
          | (Ok logs_list, w') => logs_list :: bulks fuel' w'
          | _ => []
          end
      end
  end.

(** The handler of the drain loop around [_flush_queue]. *)
Definition swallow (e : Exception) : M unit :=
  log DEBUG (UnexpectedException e).

(** What happens to the sender when its flushes run one at a time: a
    sequence of calls of the producer's two public methods, with the
    flushes of the worker's loop ([_flush_queue] under the loop's
    handler) in between, each run to its end before the next begins.
    The producer stops at the first of its calls that raises. *)
Inductive Call :=
| call_append (logs_message : PyObj)
| call_flush
| worker_flush.

Fixpoint run_calls (calls : list Call) : M unit :=
  match calls with
  | [] => ret tt
  | call_append logs_message :: calls' => append logs_message;;; run_calls calls'
  | call_flush :: calls' => flush;;; run_calls calls'
  | worker_flush :: calls' => try_except _flush_queue swallow;;; run_calls calls'
  end.


(** Two flushes that overlap.  [drain_logs_list_interrupted other] is
    [drain_logs_list] with the calls [other] of another thread run
    while this one sleeps after its first failed try (the [sleep] of the
    retry loop); a first try that ends the loop leaves no room for
    them. *)
Definition drain_logs_list_interrupted (other : M unit)
    (logs_list : list LogEntry) : M unit :=
  log DEBUG (StartingToDrain (length logs_list));;;
  sleep_between_retries <- gets (fun w => self.retry_timeout (sender w));;
  number_of_retries <- gets (fun w => self.number_of_retries (sender w));;
  let should_backup_to_disk := true in
  let hdrs := ("Content-type", "text/plain") :: SHIPPER_HEADER in
  should_backup_to_disk <-
    match range number_of_retries with
    | [] => ret should_backup_to_disk
    | first_try :: tries =>
        retrying <- for_current_try [first_try] logs_list hdrs
                                    sleep_between_retries should_backup_to_disk;;
        if retrying then
          other;;;
          for_current_try tries logs_list hdrs sleep_between_retries
                          should_backup_to_disk
        else ret false
    end;;
  backup <- gets (fun w => self.backup_logs (sender w));;
  if should_backup_to_disk && backup then
    log ERROR (CouldNotSend number_of_retries);;;
    backup_logs logs_list
  else ret tt.



(** More observations on traces. *)
Definition is_thread_start (e : Event) : bool :=
  match e with ThreadStart => true | _ => false end.

Definition is_error_log (e : Event) : bool :=
  match e with Log ERROR _ => true | _ => false end.

(** The requests of the POSTs of a trace, in order. *)
Fixpoint post_requests (tr : list Event) : list Request :=
  match tr with
  | [] => []
  | Post request _ :: tr' => request :: post_requests tr'
  | _ :: tr' => post_requests tr'
  end.

(** A text without a newline in it. *)
Fixpoint one_line (s : string) : bool :=
  match s with
  | EmptyString => true
  | String c s' => negb (Ascii.eqb c "010") && one_line s'
  end.

(** Files only grow: each holds what it held, and maybe more after it. *)
Definition files_grow (fs fs' : gmap string string) : Prop :=
  forall filename, exists suffix,
    file_contents fs' filename = file_contents fs filename +:+ suffix.

(** A request as the sender [s] makes them: to its URL, with the two
    headers, under its network timeout. *)
Definition request_of (s : LogzioSender) (request : Request) : Prop :=
  target request = self.url s /\
  headers request = sent_headers /\
  timeout request = self.network_timeout s.


End Observations.

(** ** Example worlds

    The clock shows 4 November 2026, 08:00:00 UTC, no file exists yet,
    and the sender is built by [__init__] on the CPython platform. *)

Definition world_before (replies : nat -> Reply) (alive : nat -> bool)
    (denied : string -> bool) : World :=
  mkWorld (self.mk EmptyString EmptyString 0 false 0 0 0 [] false)
          1793779200 ∅ [] 0 0 replies alive denied.

Definition world_with (number_of_retries : Z) (retry_timeout : N)
    (backup : bool) (replies : nat -> Reply) (alive : nat -> bool)
    (denied : string -> bool) : World :=
  snd (__init__ "token" "https://listener.logz.io:8071" 5 false backup 10
                number_of_retries retry_timeout
                (world_before replies alive denied)).

Definition always {A} (a : A) : nat -> A := fun _ => a.
Definition any_file (answer : bool) : string -> bool := fun _ => answer.

Definition service_unavailable : Reply := Answered (mkResponse 503 "busy").
Definition bad_request : Reply := Answered (mkResponse 400 "malformed").
Definition ok_reply : Reply := Answered (mkResponse 200 "ok").
Definition unreachable : Reply := Failed "Connection refused".

(** The default configuration against an endpoint that answers 503. *)
Definition busy_world : World :=
  world_with 4 2 true (always service_unavailable) (always true) (any_file false).

(** The default configuration against an endpoint that answers 400. *)
Definition rejecting_world : World :=
  world_with 4 2 true (always bad_request) (always true) (any_file false).

(** The default configuration against an endpoint that answers 200. *)
Definition accepting_world : World :=
  world_with 4 2 true (always ok_reply) (always true) (any_file false).

(** The main thread has ended; one entry is waiting. *)
Definition closing_world : World :=
  snd (append (PyInt 1)
         (world_with 4 2 true (always ok_reply) (always false) (any_file false))).

(** The endpoint cannot be reached and no backup file can be opened; one
    entry is waiting. *)
Definition read_only_world : World :=
  snd (append (PyInt 1)
         (world_with 4 2 true (always unreachable) (always true) (any_file true))).

(** One try, no pause between tries, the endpoint cannot be reached. *)
Definition offline_world : World :=
  world_with 1 0 true (always unreachable) (always true) (any_file false).

(** Two tries two seconds apart against an endpoint that answers 503. *)
Definition two_tries_world : World :=
  world_with 2 2 true (always service_unavailable) (always true) (any_file false).

(** Two messages, each flushed right after it was appended. *)
Definition append_flush_twice : M unit :=
  append (PyInt 1);;; flush;;; append (PyInt 2);;; flush.

(** The endpoint answers 503 twice, then 200. *)
Definition recovering_world : World :=
  world_with 4 2 true
             (fun k => if (k <? 2)%nat then service_unavailable else ok_reply)
             (always true) (any_file false).

(** No try is allowed; the endpoint would accept. *)
Definition no_tries_world : World :=
  world_with 0 2 true (always ok_reply) (always true) (any_file false).

(** Backup is off, the endpoint cannot be reached; two entries wait. *)
Definition no_backup_world : World :=
  snd (run_calls [call_append (PyInt 1); call_append (PyInt 2)]
         (world_with 4 2 false (always unreachable) (always true) (any_file false))).

(** The endpoint accepts; three entries wait. *)
Definition loaded_world : World :=
  snd (run_calls [call_append (PyInt 1); call_append (PyStr "two");
                  call_append (PyList [PyInt 3; PyNone])]
         accepting_world).



(** A list nested [depth] levels deep. *)
Fixpoint nested (depth : nat) : PyObj :=
  match depth with
  | O => PyList []
  | S depth' => PyList [nested depth']
  end.

(** Nothing is queued; the main thread ends after two liveness checks. *)
Definition idle_world : World :=
  world_with 4 2 true (always ok_reply) (fun k => (k <? 2)%nat) (any_file false).

(** ** Proofs *)

Section Proofs.
Context {platform : Platform}.

Lemma count_events_app p tr1 tr2 :
  count_events p (tr1 ++ tr2) = (count_events p tr1 + count_events p tr2)%nat.
Proof.
  induction tr1 as [|e tr1 IH]; simpl; [reflexivity|].
  rewrite IH. lia.
Qed.

Lemma delivered_bodies_app tr1 tr2 :
  delivered_bodies (tr1 ++ tr2) = delivered_bodies tr1 ++ delivered_bodies tr2.
Proof.
  induction tr1 as [|e tr1 IH]; simpl; [reflexivity|].
  destruct e; try assumption.
  destruct (reading reply); simpl; congruence.
Qed.

Lemma bulk_size_app l1 l2 :
  bulk_size (l1 ++ l2) = (bulk_size l1 + bulk_size l2)%N.
Proof.
  induction l1 as [|e l1 IH]; simpl; [reflexivity|].
  rewrite IH. lia.
Qed.

(** *** The assembler *)

(** The loop's invariant: the running total is the size of what has been
    taken and is still under the cap when the next entry is read. *)
Lemma take_up_to_spec (cap : N) (q acc : list LogEntry) (size : N) :
  (size < cap)%N ->
  size = bulk_size acc ->
  exists taken rest,
    take_up_to cap q acc size = (acc ++ taken, rest) /\
    q = taken ++ rest /\
    (q <> [] -> taken <> []) /\
    (bulk_size (removelast (acc ++ taken)) < cap)%N /\
    (rest <> [] -> (cap <= bulk_size (acc ++ taken))%N).
Proof.
  revert acc size.
  induction q as [|current_log q IH]; intros acc size Hlt Hsize.
  - exists [], []. rewrite app_nil_r. simpl. repeat split; try congruence.
    assert (bulk_size (removelast acc) <= bulk_size acc)%N; [|lia].
    destruct acc as [|a acc] using rev_ind; [simpl; lia|].
    rewrite removelast_last, bulk_size_app. lia.
  - simpl.
    destruct (cap <=? size + size_of_log current_log)%N eqn:Hcap.
    + exists [current_log], q. repeat split; try congruence.
      * rewrite removelast_last. lia.
      * intros _. rewrite bulk_size_app. simpl. apply N.leb_le in Hcap. lia.
    + apply N.leb_gt in Hcap.
      destruct (IH (acc ++ [current_log]) (size + size_of_log current_log)%N)
        as (taken & rest & Heq & Hq & _ & Hbound & Hstop).
      { exact Hcap. }
      { rewrite bulk_size_app. simpl. lia. }
      exists (current_log :: taken), rest.
      rewrite <- app_assoc in Heq, Hbound, Hstop. simpl in Heq, Hbound, Hstop.
      repeat split; try congruence; try assumption.
      simpl. congruence.
Qed.

Lemma MAX_BULK_SIZE_IN_BYTES_pos : (0 < MAX_BULK_SIZE_IN_BYTES)%N.
Proof. reflexivity. Qed.

(** The assembler takes a front piece of the queue, at least one entry
    when there is one, and touches nothing else. *)
Lemma assembler_takes_front (w : World) :
  exists logs_list w1,
    _get_messages_up_to_max_allowed_size w = (Ok logs_list, w1) /\
    (self.queue (sender w) <> [] -> logs_list <> []) /\
    self.queue (sender w) = logs_list ++ self.queue (sender w1) /\
    same_surroundings w w1 /\ checks w1 = checks w /\ trace w1 = trace w.
Proof.
  unfold _get_messages_up_to_max_allowed_size.
  destruct (take_up_to_spec MAX_BULK_SIZE_IN_BYTES (self.queue (sender w)) [] 0)
    as (taken & rest & Heq & Hq & Hne & _).
  { apply MAX_BULK_SIZE_IN_BYTES_pos. }
  { reflexivity. }
  rewrite Heq. simpl app.
  eexists _, _. split; [reflexivity|].
  unfold same_surroundings. simpl. repeat split; auto.
Qed.

(** C3. Size bounding: the entries of the assembled bulk, its last one
    left out, add up to less than the cap (1 MiB, the only cap the code
    has), and the bulk is not empty when the queue was not; the bulk is
    the front of the queue, and entries stay behind only when the total
    has reached the cap. *)
Theorem assembled_bulk_is_size_bounded (w : World) :
  exists logs_list w',
    _get_messages_up_to_max_allowed_size w = (Ok logs_list, w') /\
    (bulk_size (removelast logs_list) < MAX_BULK_SIZE_IN_BYTES)%N /\
    (self.queue (sender w) <> [] -> logs_list <> []) /\
    self.queue (sender w) = logs_list ++ self.queue (sender w') /\
    (self.queue (sender w') <> [] ->
     (MAX_BULK_SIZE_IN_BYTES <= bulk_size logs_list)%N).
Proof.
  unfold _get_messages_up_to_max_allowed_size.
  destruct (take_up_to_spec MAX_BULK_SIZE_IN_BYTES (self.queue (sender w)) [] 0)
    as (taken & rest & Heq & Hq & Hne & Hbound & Hstop).
  { apply MAX_BULK_SIZE_IN_BYTES_pos. }
  { reflexivity. }
  rewrite Heq. simpl in *.
  eexists _, _. split; [reflexivity|]. simpl. auto.
Qed.

(** *** One try of the retry loop *)

(** The first pass through the [for] loop, by the reply it meets. *)
Lemma for_current_try_unfold current_try tries logs_list d sb w :
  for_current_try (current_try :: tries) logs_list sent_headers d sb w =
  match transport w (posts w) with
  | Failed msg =>
      for_current_try tries logs_list sent_headers d sb
        (slept d (emit (failure_log (sender w) current_try (Failed msg))
                       (posted logs_list w)))
  | Answered response =>
      if (status_code response =? 200)%Z then
        (Ok false, emit (Log DEBUG (SuccessfullySent (length logs_list)))
                        (posted logs_list w))
      else if (status_code response =? 400)%Z then
        (Ok false, emit (Log INFO (Got400 (text response))) (posted logs_list w))
      else if (status_code response =? 401)%Z then
        (Ok false, emit (Log INFO NotAuthorized) (posted logs_list w))
      else
        for_current_try tries logs_list sent_headers d sb
          (slept d (emit (failure_log (sender w) current_try (Answered response))
                         (posted logs_list w)))
  end.
Proof.
  cbn [for_current_try].
  unfold bind at 1. unfold try_except, bind, gets, requests_post, posted, request_for.
  fold sent_headers.
  destruct (transport w (posts w)) as [response|msg]; simpl.
  - destruct (status_code response =? 200)%Z; simpl; [reflexivity|].
    destruct (status_code response =? 400)%Z; simpl; [reflexivity|].
    destruct (status_code response =? 401)%Z; simpl; reflexivity.
  - reflexivity.
Qed.

Lemma length_range n : length (range n) = Z.to_nat n.
Proof. unfold range. rewrite length_map, length_seq. reflexivity. Qed.

(** *** Tries that all fail *)

Lemma after_failed_tries_frame logs_list d tries w :
  let w' := after_failed_tries logs_list d tries w in
  sender w' = sender w /\ files w' = files w /\
  transport w' = transport w /\ main_thread w' = main_thread w /\
  open_denied w' = open_denied w /\ checks w' = checks w /\
  posts w' = (posts w + length tries)%nat /\
  now w' = (now w + N.of_nat (length tries) * d)%N /\
  trace w' = trace w ++ retry_events (sender w) logs_list d (transport w)
                                     (posts w) tries.
Proof.
  revert w. induction tries as [|current_try tries IH]; intros w; cbn zeta.
  - simpl. rewrite app_nil_r. repeat split; lia.
  - cbn [after_failed_tries].
    destruct (IH (slept d (emit (failure_log (sender w) current_try
                                             (transport w (posts w)))
                                (posted logs_list w))))
      as (Hs & Hf & Ht & Hm & Ho & Hc & Hp & Hn & Htr).
    cbn zeta in *. simpl in Hs, Hf, Ht, Hm, Ho, Hc, Hp, Hn, Htr.
    rewrite Hs, Hf, Ht, Hm, Ho, Hc, Hp, Hn, Htr.
    repeat split; simpl; try lia.
    rewrite <- !app_assoc. reflexivity.
Qed.

Lemma count_posts_retry_events s logs_list d replies k tries :
  count_events is_post (retry_events s logs_list d replies k tries) = length tries.
Proof.
  revert k. induction tries as [|t tries IH]; intros k; simpl; [reflexivity|].
  destruct (replies k); simpl; rewrite IH; reflexivity.
Qed.

Lemma count_sleeps_retry_events s logs_list d replies k tries :
  count_events is_sleep (retry_events s logs_list d replies k tries) = length tries.
Proof.
  revert k. induction tries as [|t tries IH]; intros k; simpl; [reflexivity|].
  destruct (replies k); simpl; rewrite IH; reflexivity.
Qed.

Lemma count_writes_retry_events s logs_list d replies k tries :
  count_events is_write (retry_events s logs_list d replies k tries) = 0%nat.
Proof.
  revert k. induction tries as [|t tries IH]; intros k; simpl; [reflexivity|].
  destruct (replies k); simpl; rewrite IH; reflexivity.
Qed.

(** When every try meets a reply the loop retries, the loop runs through
    all of [tries] and leaves with [should_backup_to_disk] as it was. *)
Lemma for_current_try_all_fail tries logs_list d sb w :
  (forall i, (i < length tries)%nat ->
             reading (transport w (posts w + i)%nat) = Transient) ->
  for_current_try tries logs_list sent_headers d sb w =
  (Ok sb, after_failed_tries logs_list d tries w).
Proof.
  revert w. induction tries as [|current_try tries IH]; intros w Hall.
  - reflexivity.
  - rewrite for_current_try_unfold. cbn [after_failed_tries].
    pose proof (Hall 0%nat ltac:(simpl; lia)) as H0.
    rewrite Nat.add_0_r in H0.
    assert (forall w', posts w' = S (posts w) -> transport w' = transport w ->
              for_current_try tries logs_list sent_headers d sb w' =
              (Ok sb, after_failed_tries logs_list d tries w')) as Hnext.
    { intros w' Hp Ht. apply IH. intros i Hi. rewrite Hp, Ht.
      replace (S (posts w) + i)%nat with (posts w + S i)%nat by lia.
      apply Hall. simpl. lia. }
    unfold reading in H0.
    destruct (transport w (posts w)) as [response|msg].
    + destruct (status_code response =? 200)%Z; [discriminate|].
      destruct (status_code response =? 400)%Z; [discriminate|].
      destruct (status_code response =? 401)%Z; [discriminate|].
      apply Hnext; reflexivity.
    + apply Hnext; reflexivity.
Qed.

(** *** backup_logs and the body of the while loop *)

Lemma backup_logs_unfold logs w :
  backup_logs logs w =
  let filename := backup_file (now w) in
  let w1 := emit (Log INFO (BackingUpYourLogs (strftime (now w)))) w in
  if open_denied w filename then (Raise (OSError filename), w1)
  else (Ok tt,
        emit (Write filename (join newline logs))
             (set_files (<[filename := file_contents (files w) filename
                                       +:+ join newline logs]> (files w)) w1)).
Proof.
  unfold backup_logs, bind, gets, log, modify, open_append_writelines, backup_file.
  simpl. destruct (open_denied w _); reflexivity.
Qed.

Lemma drain_logs_list_unfold logs_list w :
  drain_logs_list logs_list w =
  let n := self.number_of_retries (sender w) in
  match for_current_try (range n) logs_list sent_headers
                        (self.retry_timeout (sender w)) true
                        (emit (Log DEBUG (StartingToDrain (length logs_list))) w)
  with
  | (Ok should_backup_to_disk, w1) =>
      if should_backup_to_disk && self.backup_logs (sender w1)
      then backup_logs logs_list (emit (Log ERROR (CouldNotSend n)) w1)
      else (Ok tt, w1)
  | (Raise e, w1) => (Raise e, w1)
  | (OutOfFuel, w1) => (OutOfFuel, w1)
  end.
Proof.
  unfold drain_logs_list, sent_headers.
  unfold bind at 1. unfold log at 1, modify at 1.
  unfold bind at 1. unfold gets at 1.
  unfold bind at 1. unfold gets at 1.
  unfold bind at 1. cbn [sender emit].
  destruct (for_current_try _ _ _ _ _ _) as [[sb|e|] w1]; try reflexivity.
  unfold bind at 1. unfold gets at 1.
  destruct (sb && self.backup_logs (sender w1)); reflexivity.
Qed.

(** The body of the while loop when every try fails: the tries, then
    the backup branch when [self.backup_logs] is set. *)
Lemma drain_logs_list_all_fail logs_list w :
  let n := self.number_of_retries (sender w) in
  let d := self.retry_timeout (sender w) in
  (forall i, (i < Z.to_nat n)%nat ->
             reading (transport w (posts w + i)%nat) = Transient) ->
  drain_logs_list logs_list w =
  let w1 := after_failed_tries logs_list d (range n)
              (emit (Log DEBUG (StartingToDrain (length logs_list))) w) in
  if self.backup_logs (sender w)
  then backup_logs logs_list (emit (Log ERROR (CouldNotSend n)) w1)
  else (Ok tt, w1).
Proof.
  intros n d Hall. rewrite drain_logs_list_unfold. cbn zeta. fold n d.
  rewrite for_current_try_all_fail.
  - destruct (after_failed_tries_frame logs_list d (range n)
                (emit (Log DEBUG (StartingToDrain (length logs_list))) w))
      as (Hs & _).
    cbn zeta in Hs. rewrite Hs. reflexivity.
  - intros i Hi. rewrite length_range in Hi. simpl. auto.
Qed.

(** C1. Retry exhaustion: with [number_of_retries] at least 1 and a
    transport whose every reply is one the loop retries (a status other
    than 200, 400 and 401, or a raised fault), the loop makes exactly
    [number_of_retries] POSTs and is left with [should_backup_to_disk]
    still true; the body of the while loop then goes into the backup
    branch when [self.backup_logs] is set, and the whole delivery of the
    bulk has made exactly [number_of_retries] POSTs. *)
Theorem retry_exhaustion (logs_list : list LogEntry) (w : World) :
  (1 <= self.number_of_retries (sender w))%Z ->
  (forall k, reading (transport w k) = Transient) ->
  let n := self.number_of_retries (sender w) in
  exists w1,
    for_current_try (range n) logs_list sent_headers
                    (self.retry_timeout (sender w)) true
                    (emit (Log DEBUG (StartingToDrain (length logs_list))) w)
    = (Ok true, w1) /\
    Z.of_nat (count_events is_post (trace w1))
    = (Z.of_nat (count_events is_post (trace w)) + n)%Z /\
    drain_logs_list logs_list w
    = (if self.backup_logs (sender w)
       then backup_logs logs_list (emit (Log ERROR (CouldNotSend n)) w1)
       else (Ok tt, w1)) /\
    Z.of_nat (count_events is_post (trace (snd (drain_logs_list logs_list w))))
    = (Z.of_nat (count_events is_post (trace w)) + n)%Z.
Proof.
  intros Hn Hall n.
  set (d := self.retry_timeout (sender w)).
  set (w0 := emit (Log DEBUG (StartingToDrain (length logs_list))) w).
  exists (after_failed_tries logs_list d (range n) w0).
  destruct (after_failed_tries_frame logs_list d (range n) w0)
    as (Hs & Hf & Ht & Hm & Ho & Hc & Hp & Hnow & Htr).
  cbn zeta in *.
  assert (Z.of_nat (count_events is_post
                      (trace (after_failed_tries logs_list d (range n) w0)))
          = (Z.of_nat (count_events is_post (trace w)) + n)%Z) as Hposts.
  { rewrite Htr. subst w0. simpl trace.
    rewrite !count_events_app, count_posts_retry_events, length_range.
    simpl. lia. }
  split; [|split; [exact Hposts|split]].
  - apply for_current_try_all_fail. intros i _. subst w0. simpl. apply Hall.
  - rewrite drain_logs_list_all_fail by (intros; apply Hall). reflexivity.
  - rewrite drain_logs_list_all_fail by (intros; apply Hall). cbn zeta.
    fold n d w0.
    destruct (self.backup_logs (sender w)); [|exact Hposts].
    rewrite backup_logs_unfold. cbn zeta.
    destruct (open_denied _ _); simpl; rewrite !count_events_app; simpl;
      fold w0; lia.
Qed.

Lemma range_first n :
  (1 <= n)%Z -> exists tries, range n = 0%Z :: tries.
Proof.
  intros Hn. unfold range.
  destruct (Z.to_nat n) as [|m] eqn:Hm; [lia|].
  simpl. eauto.
Qed.

(** C2. No retry on 400/401: when the first POST of a bulk is answered
    with status 400 or 401, that POST is the only one, the loop is left
    with [should_backup_to_disk] false, and nothing is written, whatever
    [self.backup_logs] says: the delivery adds to the trace its opening
    log line, the POST and the line logged for the status, and leaves
    the files, the clock and the sender as they were. *)
Theorem no_retry_on_400_401 (logs_list : list LogEntry) (w : World)
    (response : Response) :
  (1 <= self.number_of_retries (sender w))%Z ->
  transport w (posts w) = Answered response ->
  status_code response = 400%Z \/ status_code response = 401%Z ->
  exists w',
    drain_logs_list logs_list w = (Ok tt, w') /\
    reading (transport w (posts w)) = Rejected /\
    trace w' = trace w ++
      [Log DEBUG (StartingToDrain (length logs_list));
       Post (request_for (sender w) logs_list) (Answered response);
       Log INFO (if (status_code response =? 400)%Z
                 then Got400 (text response) else NotAuthorized)] /\
    count_events is_post (trace w') = S (count_events is_post (trace w)) /\
    count_events is_write (trace w') = count_events is_write (trace w) /\
    files w' = files w /\ now w' = now w /\ sender w' = sender w.
Proof.
  intros Hn Hreply Hstatus.
  rewrite drain_logs_list_unfold. cbn zeta.
  destruct (range_first _ Hn) as (tries & ->).
  rewrite for_current_try_unfold.
  cbn [transport posts emit]. rewrite Hreply.
  unfold reading.
  destruct Hstatus as [Hs|Hs]; rewrite Hs; simpl;
    (eexists; split; [reflexivity|]); simpl;
    rewrite <- ?app_assoc, ?count_events_app; simpl;
    rewrite ?Hreply; repeat split; try reflexivity; try lia.
Qed.

(** *** The retry loop against any transport *)

Lemma same_surroundings_refl w : same_surroundings w w.
Proof. unfold same_surroundings. destruct w as [[]]; simpl. auto. Qed.

Lemma same_surroundings_trans w1 w2 w3 :
  same_surroundings w1 w2 -> same_surroundings w2 w3 -> same_surroundings w1 w3.
Proof.
  unfold same_surroundings.
  intros (Ht & Hm & Ho & Hs) (Ht' & Hm' & Ho' & Hs').
  rewrite Ht', Hm', Ho', Hs', Hs. destruct (sender w1); simpl. auto.
Qed.

(** Whatever the endpoint replies, the loop returns, touches neither the
    sender nor the files, and the bodies accepted with 200 grow by this
    bulk's body or not at all. *)
Lemma for_current_try_spec tries logs_list d sb w :
  exists b w' sent,
    for_current_try tries logs_list sent_headers d sb w = (Ok b, w') /\
    sender w' = sender w /\ files w' = files w /\ checks w' = checks w /\
    transport w' = transport w /\ main_thread w' = main_thread w /\
    open_denied w' = open_denied w /\
    delivered_bodies (trace w') = delivered_bodies (trace w) ++ sent /\
    (sent = [] \/ sent = [join newline logs_list]).
Proof.
  revert w. induction tries as [|current_try tries IH]; intros w.
  - exists sb, w, []. rewrite app_nil_r. simpl. tauto.
  - rewrite for_current_try_unfold.
    assert (reading (transport w (posts w)) = Transient ->
      exists b w' sent,
        for_current_try tries logs_list sent_headers d sb
          (slept d (emit (failure_log (sender w) current_try
                                      (transport w (posts w)))
                         (posted logs_list w))) = (Ok b, w') /\
        sender w' = sender w /\ files w' = files w /\ checks w' = checks w /\
        transport w' = transport w /\ main_thread w' = main_thread w /\
        open_denied w' = open_denied w /\
        delivered_bodies (trace w') = delivered_bodies (trace w) ++ sent /\
        (sent = [] \/ sent = [join newline logs_list])) as Hnext.
    { intros Hr.
      destruct (IH (slept d (emit (failure_log (sender w) current_try
                                               (transport w (posts w)))
                                  (posted logs_list w))))
        as (b & w' & sent & Heq & Hs & Hf & Hc & Ht & Hm & Ho & Hd & Hsent).
      exists b, w', sent. simpl in Hs, Hf, Hc, Ht, Hm, Ho, Hd.
      rewrite !delivered_bodies_app in Hd. simpl in Hd. rewrite Hr in Hd.
      assert (delivered_bodies [failure_log (sender w) current_try
                                            (transport w (posts w))] = []) as Hev.
      { destruct (transport w (posts w)); reflexivity. }
      simpl in Hev. rewrite Hev in Hd. simpl in Hd. rewrite !app_nil_r in Hd.
      tauto. }
    unfold reading in Hnext.
    destruct (transport w (posts w)) as [response|msg] eqn:Hreply.
    + destruct (status_code response =? 200)%Z eqn:H200.
      { exists false, (emit (Log DEBUG (SuccessfullySent (length logs_list)))
                           (posted logs_list w)), [join newline logs_list].
        simpl. rewrite !delivered_bodies_app. simpl.
        rewrite Hreply. unfold reading. rewrite H200. simpl.
        rewrite app_nil_r. tauto. }
      destruct (status_code response =? 400)%Z eqn:H400.
      { exists false, (emit (Log INFO (Got400 (text response)))
                           (posted logs_list w)), [].
        simpl. rewrite !delivered_bodies_app. simpl.
        rewrite Hreply. unfold reading. rewrite H200, H400. simpl.
        rewrite !app_nil_r. tauto. }
      destruct (status_code response =? 401)%Z eqn:H401.
      { exists false, (emit (Log INFO NotAuthorized) (posted logs_list w)), [].
        simpl. rewrite !delivered_bodies_app. simpl.
        rewrite Hreply. unfold reading. rewrite H200, H400, H401. simpl.
        rewrite !app_nil_r. tauto. }
      apply Hnext. reflexivity.
    + apply Hnext. reflexivity.
Qed.

(** The body of the while loop against any transport: it returns or
    raises the [OSError] of the backup, never anything else. *)
Lemma drain_logs_list_spec logs_list w :
  exists r w' sent,
    drain_logs_list logs_list w = (r, w') /\
    (r = Ok tt \/ exists filename, r = Raise (OSError filename)) /\
    sender w' = sender w /\ checks w' = checks w /\
    transport w' = transport w /\ main_thread w' = main_thread w /\
    open_denied w' = open_denied w /\
    delivered_bodies (trace w') = delivered_bodies (trace w) ++ sent /\
    (sent = [] \/ sent = [join newline logs_list]).
Proof.
  rewrite drain_logs_list_unfold. cbn zeta.
  destruct (for_current_try_spec (range (self.number_of_retries (sender w)))
              logs_list (self.retry_timeout (sender w)) true
              (emit (Log DEBUG (StartingToDrain (length logs_list))) w))
    as (b & w1 & sent & Heq & Hs & Hf & Hc & Ht & Hm & Ho & Hd & Hsent).
  rewrite Heq. simpl in Hs, Hf, Hc, Ht, Hm, Ho, Hd.
  rewrite delivered_bodies_app in Hd. simpl in Hd. rewrite app_nil_r in Hd.
  destruct (b && self.backup_logs (sender w1)).
  - rewrite backup_logs_unfold. cbn zeta. cbn [open_denied now emit].
    destruct (open_denied w1 _).
    + eexists _, _, sent. split; [reflexivity|]. simpl.
      rewrite !delivered_bodies_app. simpl. rewrite !app_nil_r.
      repeat split; eauto.
    + eexists _, _, sent. split; [reflexivity|]. simpl.
      rewrite !delivered_bodies_app. simpl. rewrite !app_nil_r.
      repeat split; eauto.
  - exists (Ok tt), w1, sent. repeat split; eauto.
Qed.

(** The body of the while loop when the first POST is answered 200. *)
Lemma drain_logs_list_accepted logs_list w :
  (1 <= self.number_of_retries (sender w))%Z ->
  reading (transport w (posts w)) = Accepted ->
  exists w',
    drain_logs_list logs_list w = (Ok tt, w') /\
    delivered_bodies (trace w') =
    delivered_bodies (trace w) ++ [join newline logs_list] /\
    count_events is_post (trace w') = S (count_events is_post (trace w)) /\
    count_events is_write (trace w') = count_events is_write (trace w) /\
    files w' = files w.
Proof.
  intros Hn Hr. rewrite drain_logs_list_unfold. cbn zeta.
  destruct (range_first _ Hn) as (tries & ->).
  rewrite for_current_try_unfold. cbn [transport posts emit].
  unfold reading in Hr.
  destruct (transport w (posts w)) as [response|msg] eqn:Hreply; [|discriminate].
  destruct (status_code response =? 200)%Z eqn:H200.
  - simpl. eexists. split; [reflexivity|]. simpl.
    rewrite !delivered_bodies_app, !count_events_app. simpl.
    rewrite Hreply. unfold reading. rewrite H200. simpl.
    rewrite !app_nil_r. repeat split; lia.
  - destruct (status_code response =? 400)%Z; [discriminate|].
    destruct (status_code response =? 401)%Z; discriminate.
Qed.

(** *** _flush_queue *)

Lemma while_queue_not_empty_spec fuel w :
  (length (self.queue (sender w)) <= fuel)%nat ->
  exists r w' batches consumed,
    while_queue_not_empty fuel w = (r, w') /\
    (r = Ok tt \/ exists filename, r = Raise (OSError filename)) /\
    same_surroundings w w' /\ checks w' = checks w /\
    delivered_bodies (trace w') =
    delivered_bodies (trace w) ++ map (join newline) batches /\
    self.queue (sender w) = consumed ++ self.queue (sender w') /\
    sublist (concat batches) consumed /\
    (r = Ok tt -> self.queue (sender w') = []) /\
    ((forall k, reading (transport w k) = Accepted) ->
     (1 <= self.number_of_retries (sender w))%Z ->
     r = Ok tt /\ concat batches = self.queue (sender w)).
Proof.
  revert w. induction fuel as [|fuel IH]; intros w Hlen.
  - destruct (self.queue (sender w)) as [|e q] eqn:Hq; [|simpl in Hlen; lia].
    exists (Ok tt), w, [], [].
    split; [simpl; rewrite Hq; reflexivity|].
    split; [auto|]. split; [apply same_surroundings_refl|].
    split; [reflexivity|]. split; [simpl; rewrite app_nil_r; reflexivity|].
    split; [rewrite ?Hq; reflexivity|]. split; [constructor|].
    split; [intros _; exact Hq|]. intros _ _. rewrite ?Hq. auto.
  - cbn [while_queue_not_empty].
    destruct (self.queue (sender w)) as [|e q] eqn:Hq.
    { exists (Ok tt), w, [], [].
      split; [reflexivity|].
      split; [auto|]. split; [apply same_surroundings_refl|].
      split; [reflexivity|]. split; [simpl; rewrite app_nil_r; reflexivity|].
      split; [rewrite ?Hq; reflexivity|]. split; [constructor|].
      split; [intros _; exact Hq|]. intros _ _. auto. }
    unfold bind at 1.
    destruct (assembler_takes_front w)
      as (logs_list & w1 & Hget & Hne & Hsplit & Hsur1 & Hc1 & Htr1).
    rewrite Hget.
    unfold bind at 1.
    destruct (drain_logs_list_spec logs_list w1)
      as (r1 & w2 & sent & Hdrain & Hr1 & Hs2 & Hc2 & Ht2 & Hm2 & Ho2 & Hd2 & Hsent).
    rewrite Hdrain.
    assert (same_surroundings w w2) as Hsur2.
    { apply same_surroundings_trans with w1; [exact Hsur1|].
      unfold same_surroundings. rewrite Ht2, Hm2, Ho2, Hs2.
      destruct (sender w1); simpl; auto. }
    rewrite Hq in Hsplit, Hne.
    assert (logs_list <> []) as Hlogs by (apply Hne; discriminate).
    assert (exists batch, sent = map (join newline) batch /\
                          sublist (concat batch) logs_list /\
                          (sent = [join newline logs_list] -> batch = [logs_list]))
      as (batch & Hbatch & Hsub & Hfull).
    { destruct Hsent as [->| ->].
      - exists []. simpl. repeat split; [apply sublist_nil_l|discriminate].
      - exists [logs_list]. simpl. rewrite app_nil_r. repeat split; reflexivity. }
    destruct Hr1 as [->|(filename & ->)].
    + destruct (IH w2) as (r & w' & batches & consumed & Heq & Hr & Hsur & Hc
                           & Hd & Hcons & Hsubl & Hempty & Hacc).
      { rewrite Hs2. apply (f_equal (@length _)) in Hsplit.
        rewrite length_app in Hsplit. simpl in Hsplit, Hlen.
        destruct logs_list; [congruence|]. simpl in Hsplit. lia. }
      exists r, w', (batch ++ batches), (logs_list ++ consumed).
      split; [exact Heq|]. split; [exact Hr|].
      split; [eapply same_surroundings_trans; eassumption|].
      split; [congruence|].
      split; [rewrite Hd, Hd2, Htr1, Hbatch, map_app, app_assoc; reflexivity|].
      split; [rewrite <- app_assoc, <- Hcons, Hs2; exact Hsplit|].
      split; [rewrite concat_app; apply sublist_app; assumption|].
      split; [exact Hempty|].
      intros Hall Hn.
      destruct (drain_logs_list_accepted logs_list w1) as (w2' & Hdrain' & Hd2' & _).
      { destruct Hsur1 as (_ & _ & _ & ->). simpl. exact Hn. }
      { destruct Hsur1 as (-> & _). apply Hall. }
      rewrite Hdrain in Hdrain'. inversion Hdrain'; subst w2'.
      rewrite Hd2 in Hd2'. apply app_inv_head in Hd2'.
      rewrite (Hfull Hd2'). simpl.
      destruct Hacc as (-> & ->).
      { intros k. destruct Hsur2 as (-> & _). apply Hall. }
      { destruct Hsur2 as (_ & _ & _ & ->). simpl. exact Hn. }
      split; [reflexivity|]. rewrite Hs2. symmetry. exact Hsplit.
    + exists (Raise (OSError filename)), w2, batch, logs_list.
      split; [reflexivity|]. split; [eauto|].
      split; [exact Hsur2|]. split; [congruence|].
      split; [rewrite Hd2, Htr1, Hbatch; reflexivity|].
      split; [rewrite Hs2; exact Hsplit|].
      split; [exact Hsub|]. split; [discriminate|].
      intros Hall Hn.
      destruct (drain_logs_list_accepted logs_list w1) as (w2' & Hdrain' & _).
      { destruct Hsur1 as (_ & _ & _ & ->). simpl. exact Hn. }
      { destruct Hsur1 as (-> & _). apply Hall. }
      rewrite Hdrain in Hdrain'. discriminate.
Qed.

(** [_flush_queue] returns: the fuel it gives its loop is enough.  The
    only thing that can leave it early is the [OSError] of a backup. *)
Lemma _flush_queue_returns w :
  exists r w',
    _flush_queue w = (r, w') /\
    (r = Ok tt \/ exists filename, r = Raise (OSError filename)) /\
    same_surroundings w w' /\ checks w' = checks w /\
    (r = Ok tt -> self.queue (sender w') = []).
Proof.
  unfold _flush_queue.
  destruct (while_queue_not_empty_spec (length (self.queue (sender w))) w)
    as (r & w' & batches & consumed & Heq & Hr & Hsur & Hc & _ & _ & _ & He & _).
  { lia. }
  exists r, w'. auto.
Qed.

(** Around [_flush_queue], the handler of the drain loop leaves nothing
    to propagate. *)
Lemma guarded_flush_returns w :
  exists w',
    try_except _flush_queue swallow w = (Ok tt, w') /\
    same_surroundings w w' /\ checks w' = checks w.
Proof.
  unfold try_except.
  destruct (_flush_queue_returns w) as (r & w' & Heq & Hr & Hsur & Hc & _).
  rewrite Heq.
  destruct Hr as [->|(filename & ->)].
  - exists w'. auto.
  - eexists. split; [reflexivity|]. simpl. split; [|exact Hc].
    destruct Hsur as (Ht & Hm & Ho & Hs). unfold same_surroundings. simpl. auto.
Qed.

(** *** append *)

Lemma append_unfold logs_message w :
  append logs_message w =
  let w0 := if self.sending_thread_is_alive (sender w) then w
            else emit ThreadStart
                      (set_sender (self.with_thread true (sender w)) w) in
  match dumps logs_message with
  | inl e => (Raise e, w0)
  | inr entry =>
      (Ok tt, set_sender (self.with_queue (self.queue (sender w0) ++ [entry])
                                          (sender w0)) w0)
  end.
Proof.
  unfold append, bind, gets, json_dumps, queue_put, modify,
    _initialize_sending_thread, ret.
  destruct (self.sending_thread_is_alive (sender w)); simpl;
    destruct (dumps logs_message); reflexivity.
Qed.





(** With nothing run in the sleep, the interrupted delivery is the
    delivery. *)
Lemma drain_logs_list_interrupted_by_nothing logs_list w :
  drain_logs_list_interrupted (ret tt) logs_list w = drain_logs_list logs_list w.
Proof.
  unfold drain_logs_list_interrupted, drain_logs_list, log, gets, modify, bind.
  cbv beta iota zeta. fold sent_headers.
  destruct (range _) as [|first_try tries]; [reflexivity|].
  rewrite !for_current_try_unfold.
  destruct (transport _ _) as [response|msg].
  - destruct (status_code response =? 200)%Z; [reflexivity|].
    destruct (status_code response =? 400)%Z; [reflexivity|].
    destruct (status_code response =? 401)%Z; [reflexivity|].
    cbn [for_current_try]. unfold ret. reflexivity.
  - cbn [for_current_try]. unfold ret. reflexivity.
Qed.



(** *** append and json.dumps *)

(** [CustomJSONEncoder.default] knows datetimes only. *)
Lemma default_spec (o : PyObj) :
  match o with
  | PyDatetime instant => default o = inr (isoformat instant)
  | _ => default o =
         inl (TypeError ("Object of type " +:+ class_name o +:+ " is not JSON serializable"))
  end.
Proof.
  destruct o; reflexivity.
Qed.

(** C6 (amended). [append] never waits for the delivery.  When
    [json.dumps] returns a text for the message, [append] returns
    normally whatever the transport would do: the text is put at the end
    of the queue, the sending thread is (re)started when it was not
    alive, and nothing of the delivery happens in the call: no POST, no
    sleep, no file written, the clock and the files unchanged.  When
    [json.dumps] raises, whatever the exception, it reaches the caller
    of [append]: nothing is queued, and the thread check has been made
    before.  [CustomJSONEncoder.default] returns a text for a datetime
    only, and raises [TypeError] for any other object it is given. *)
Theorem append_is_fire_and_forget (logs_message : PyObj) (w : World) :
  (forall entry,
     dumps logs_message = inr entry ->
     exists w',
       append logs_message w = (Ok tt, w') /\
       self.queue (sender w') = self.queue (sender w) ++ [entry] /\
       self.sending_thread_is_alive (sender w') = true /\
       trace w' = trace w ++
                  (if self.sending_thread_is_alive (sender w) then []
                   else [ThreadStart]) /\
       count_events is_post (trace w') = count_events is_post (trace w) /\
       count_events is_sleep (trace w') = count_events is_sleep (trace w) /\
       count_events is_write (trace w') = count_events is_write (trace w) /\
       posts w' = posts w /\ now w' = now w /\ files w' = files w) /\
  (forall e,
     dumps logs_message = inl e ->
     exists w',
       append logs_message w = (Raise e, w') /\
       self.queue (sender w') = self.queue (sender w) /\
       self.sending_thread_is_alive (sender w') = true /\
       trace w' = trace w ++
                  (if self.sending_thread_is_alive (sender w) then []
                   else [ThreadStart]) /\
       posts w' = posts w /\ now w' = now w /\ files w' = files w) /\
  (forall o,
     (exists instant, o = PyDatetime instant /\ default o = inr (isoformat instant)) \/
     (exists msg, default o = inl (TypeError msg))).
Proof.
  split; [|split].
  - intros entry Henc. rewrite append_unfold, Henc. cbv beta iota zeta.
    eexists. split; [reflexivity|].
    destruct (self.sending_thread_is_alive (sender w)) eqn:Halive; simpl;
      rewrite ?app_nil_r, ?count_events_app; simpl;
      repeat split; auto; lia.
  - intros e Henc. rewrite append_unfold, Henc. cbv beta iota zeta.
    eexists. split; [reflexivity|].
    destruct (self.sending_thread_is_alive (sender w)) eqn:Halive; simpl;
      rewrite ?app_nil_r; repeat split; auto.
  - intros o. pose proof (default_spec o) as H.
    destruct o; eauto.
Qed.

(** *** _drain_queue *)

(** One pass of the drain loop, by the answer of the liveness check. *)
Lemma while_not_last_try_unfold fuel w :
  while_not_last_try (S fuel) false w =
  let checked := set_checks (S (checks w)) w in
  if main_thread w (checks w) then
    match try_except _flush_queue swallow checked with
    | (Ok _, w') =>
        while_not_last_try fuel false
          (slept (self.logs_drain_timeout (sender w')) w')
    | (Raise e, w') => (Raise e, w')
    | (OutOfFuel, w') => (OutOfFuel, w')
    end
  else
    match try_except _flush_queue swallow
                     (emit (Log DEBUG IdentifiedQuitOfMainThread) checked) with
    | (Ok _, w') => (Ok tt, w')
    | (Raise e, w') => (Raise e, w')
    | (OutOfFuel, w') => (OutOfFuel, w')
    end.
Proof.
  cbn [while_not_last_try]. unfold bind at 1. unfold is_main_thread_active.
  cbv zeta.
  destruct (main_thread w (checks w)); cbn [negb].
  - unfold bind at 1. unfold ret at 1. unfold bind at 1.
    change (fun e => log DEBUG (UnexpectedException e)) with swallow.
    destruct (try_except _flush_queue swallow _) as [[[]|e|] w']; try reflexivity.
  - unfold bind at 1. unfold bind at 1. unfold log at 1, modify at 1, ret at 1.
    unfold bind at 1.
    change (fun e => log DEBUG (UnexpectedException e)) with swallow.
    destruct (try_except _flush_queue swallow _) as [[[]|e|] w']; try reflexivity.
    destruct fuel; reflexivity.
Qed.

(** No exception leaves the drain loop: the worker is not ended by one. *)
Lemma while_not_last_try_never_raises fuel last_try w :
  exists r w',
    while_not_last_try fuel last_try w = (r, w') /\
    (r = Ok tt \/ r = OutOfFuel).
Proof.
  revert w. induction fuel as [|fuel IH]; intros w.
  - destruct last_try; simpl; eauto.
  - destruct last_try; [simpl; unfold ret; eauto|].
    rewrite while_not_last_try_unfold. cbv zeta.
    destruct (main_thread w (checks w)).
    + destruct (guarded_flush_returns (set_checks (S (checks w)) w))
        as (w' & -> & _).
      apply IH.
    + destruct (guarded_flush_returns
                  (emit (Log DEBUG IdentifiedQuitOfMainThread)
                        (set_checks (S (checks w)) w)))
        as (w' & -> & _).
      eauto.
Qed.

(** C5. Shutdown drain: when the liveness check of a pass finds the main
    thread gone, the drain loop is exactly: the log line, one
    [_flush_queue] under the loop's handler, and nothing after it; no
    sleep of [logs_drain_timeout], no further pass.  It returns, with
    any fuel left or none, having made this one liveness check only. *)
Theorem shutdown_drain (fuel : nat) (w : World) :
  main_thread w (checks w) = false ->
  _drain_queue (S fuel) w =
    try_except _flush_queue swallow
      (emit (Log DEBUG IdentifiedQuitOfMainThread)
            (set_checks (S (checks w)) w)) /\
  exists w',
    _drain_queue (S fuel) w = (Ok tt, w') /\
    checks w' = S (checks w).
Proof.
  intros Hgone. unfold _drain_queue.
  rewrite while_not_last_try_unfold. cbv zeta. rewrite Hgone.
  destruct (guarded_flush_returns
              (emit (Log DEBUG IdentifiedQuitOfMainThread)
                    (set_checks (S (checks w)) w)))
    as (w' & Heq & _ & Hc).
  rewrite Heq. split; [reflexivity|].
  exists w'. split; [reflexivity|]. exact Hc.
Qed.

(** While the main thread is alive the loop goes on; it stops with the
    first check that finds it gone, after one pass per check. *)
Lemma drain_queue_stops_at_quit (k extra : nat) (w : World) :
  (forall i, (i < k)%nat -> main_thread w (checks w + i)%nat = true) ->
  main_thread w (checks w + k)%nat = false ->
  exists w',
    _drain_queue (S k + extra) w = (Ok tt, w') /\
    checks w' = (checks w + S k)%nat.
Proof.
  unfold _drain_queue. revert w.
  induction k as [|k IH]; intros w Halive Hgone.
  - rewrite Nat.add_0_r in Hgone.
    rewrite while_not_last_try_unfold. cbv zeta. rewrite Hgone.
    destruct (guarded_flush_returns
                (emit (Log DEBUG IdentifiedQuitOfMainThread)
                      (set_checks (S (checks w)) w)))
      as (w' & -> & _ & Hc).
    exists w'. split; [reflexivity|]. simpl in Hc. lia.
  - change (S (S k) + extra)%nat with (S (S k + extra)).
    rewrite while_not_last_try_unfold. cbv zeta.
    pose proof (Halive 0%nat ltac:(lia)) as H0. rewrite Nat.add_0_r in H0.
    rewrite H0.
    destruct (guarded_flush_returns (set_checks (S (checks w)) w))
      as (w1 & -> & (Ht & Hm & Ho & Hs) & Hc).
    simpl in Hm, Hc.
    destruct (IH (slept (self.logs_drain_timeout (sender w1)) w1))
      as (w' & Heq & Hc').
    { intros i Hi. simpl. rewrite Hm, Hc.
      replace (S (checks w) + i)%nat with (checks w + S i)%nat by lia.
      apply Halive. lia. }
    { simpl. rewrite Hm, Hc.
      replace (S (checks w) + k)%nat with (checks w + S k)%nat by lia.
      exact Hgone. }
    exists w'. split; [exact Heq|]. simpl in Hc'. lia.
Qed.

(** *** A backup that cannot be written *)

(** C8 (amended). When the bulk at the head of the queue exhausts its
    tries, backup is on and the backup file cannot be opened, the
    [OSError] leaves [_flush_queue]: a direct caller of [flush] receives
    it.  Only the handler of the drain loop catches it, logs it at debug
    level and lets the worker go on, so the drain loop never ends with
    an exception.  In both paths the bulk is lost, no file is touched,
    and the entries behind the bulk are still in the queue. *)
Theorem backup_failure_reaches_flush_caller (w : World) :
  let n := self.number_of_retries (sender w) in
  let d := self.retry_timeout (sender w) in
  let filename := backup_file (now w + N.of_nat (Z.to_nat n) * d) in
  let rest := snd (take_up_to MAX_BULK_SIZE_IN_BYTES (self.queue (sender w)) [] 0) in
  self.queue (sender w) <> [] ->
  self.backup_logs (sender w) = true ->
  (forall k, reading (transport w k) = Transient) ->
  open_denied w filename = true ->
  exists w1,
    flush w = (Raise (OSError filename), w1) /\
    self.queue (sender w1) = rest /\
    files w1 = files w /\
    try_except _flush_queue swallow w =
      (Ok tt, emit (Log DEBUG (UnexpectedException (OSError filename))) w1) /\
    (forall fuel, exists r w',
        _drain_queue fuel w = (r, w') /\ (r = Ok tt \/ r = OutOfFuel)).
Proof.
  intros n d filename rest Hq Hbackup Hall Hdenied.
  assert (exists w1, _flush_queue w = (Raise (OSError filename), w1) /\
                     self.queue (sender w1) = rest /\ files w1 = files w)
    as (w1 & Hflush & Hrest & Hfiles).
  { unfold _flush_queue. subst rest.
    destruct (self.queue (sender w)) as [|e q] eqn:Hqueue; [congruence|].
    cbn [length while_queue_not_empty]. rewrite Hqueue.
    unfold bind at 1. unfold _get_messages_up_to_max_allowed_size at 1.
    rewrite Hqueue.
    destruct (take_up_to MAX_BULK_SIZE_IN_BYTES (e :: q) [] 0)
      as [logs_list left_in_queue].
    cbn [snd]. unfold bind at 1.
    rewrite drain_logs_list_all_fail by (intros; simpl; apply Hall).
    cbn zeta. cbn [sender set_sender self.backup_logs self.with_queue
                   self.retry_timeout self.number_of_retries].
    fold n d. rewrite Hbackup.
    match goal with |- context [after_failed_tries ?l ?dd ?t ?w0] =>
      destruct (after_failed_tries_frame l dd t w0)
        as (Hs & Hf & Ht & Hm & Ho & Hc & Hp & Hnow & Htr);
      set (tried := after_failed_tries l dd t w0) in *
    end.
    cbn zeta in *. rewrite length_range in Hnow. simpl in Hs, Hf, Ho, Hnow.
    rewrite backup_logs_unfold. cbn zeta. cbn [now emit open_denied].
    rewrite Hnow, Ho. fold filename. rewrite Hdenied.
    eexists. split; [reflexivity|]. simpl. rewrite Hs, Hf. auto. }
  exists w1. split; [exact Hflush|]. split; [exact Hrest|].
  split; [exact Hfiles|]. split.
  - unfold try_except. rewrite Hflush. reflexivity.
  - intros fuel. apply while_not_last_try_never_raises.
Qed.

(** *** What the backup writes *)

(** The body of the while loop when the tries are exhausted, backup is
    on and the file can be opened: one write, which puts the
    newline-joined bulk right after what the file held. *)
Lemma backup_appends_joined_bulk logs_list w :
  let n := self.number_of_retries (sender w) in
  let d := self.retry_timeout (sender w) in
  let filename := backup_file (now w + N.of_nat (Z.to_nat n) * d) in
  self.backup_logs (sender w) = true ->
  (forall k, reading (transport w k) = Transient) ->
  open_denied w filename = false ->
  exists w',
    drain_logs_list logs_list w = (Ok tt, w') /\
    count_events is_write (trace w') = S (count_events is_write (trace w)) /\
    files w' !! filename =
    Some (file_contents (files w) filename +:+ join newline logs_list).
Proof.
  intros n d filename Hbackup Hall Hopen.
  rewrite drain_logs_list_all_fail by (intros; apply Hall).
  cbn zeta. fold n d. rewrite Hbackup.
  match goal with |- context [after_failed_tries ?l ?dd ?t ?w0] =>
    destruct (after_failed_tries_frame l dd t w0)
      as (Hs & Hf & Ht & Hm & Ho & Hc & Hp & Hnow & Htr);
    set (tried := after_failed_tries l dd t w0) in *
  end.
  cbn zeta in *. rewrite length_range in Hnow. simpl in Hs, Hf, Ho, Hnow, Htr.
  rewrite backup_logs_unfold. cbn zeta. cbn [now emit open_denied files].
  rewrite Hnow, Ho, Hf. fold filename. rewrite Hopen.
  eexists. split; [reflexivity|]. simpl. split.
  - rewrite Htr, !count_events_app, count_writes_retry_events. simpl. lia.
  - apply lookup_insert_eq.
Qed.

(** When every try fails, every try is followed by a sleep, the last
    one too: as many sleeps as POSTs. *)
Lemma sleep_follows_every_failed_try logs_list w :
  let n := self.number_of_retries (sender w) in
  (forall k, reading (transport w k) = Transient) ->
  let w' := snd (drain_logs_list logs_list w) in
  count_events is_sleep (trace w') =
  (count_events is_sleep (trace w) + Z.to_nat n)%nat /\
  now w' = (now w + N.of_nat (Z.to_nat n) * self.retry_timeout (sender w))%N.
Proof.
  intros n Hall. cbn zeta.
  rewrite drain_logs_list_all_fail by (intros; apply Hall).
  cbn zeta. fold n.
  match goal with |- context [after_failed_tries ?l ?dd ?t ?w0] =>
    destruct (after_failed_tries_frame l dd t w0)
      as (Hs & Hf & Ht & Hm & Ho & Hc & Hp & Hnow & Htr);
    set (tried := after_failed_tries l dd t w0) in *
  end.
  cbn zeta in *. rewrite length_range in Hnow. simpl in Hnow, Htr.
  assert (count_events is_sleep (trace tried) =
          (count_events is_sleep (trace w) + Z.to_nat n)%nat) as Hsleeps.
  { rewrite Htr, !count_events_app, count_sleeps_retry_events, length_range.
    simpl. lia. }
  destruct (self.backup_logs (sender w)); [|auto].
  rewrite backup_logs_unfold. cbn zeta.
  destruct (open_denied _ _); simpl; rewrite !count_events_app; simpl;
    split; try lia; exact Hnow.
Qed.

(** *** The cap *)

Lemma bulks_of_empty_queue fuel w :
  self.queue (sender w) = [] -> bulks fuel w = [].
Proof. intros Hq. destruct fuel; simpl; [reflexivity|]. rewrite Hq. reflexivity. Qed.

Lemma bulks_spec (fuel : nat) (w : World) :
  (length (self.queue (sender w)) <= fuel)%nat ->
  concat (bulks fuel w) = self.queue (sender w) /\
  Forall (fun b => b <> [] /\
                   (bulk_size (removelast b) < MAX_BULK_SIZE_IN_BYTES)%N)
         (bulks fuel w) /\
  (forall i b, bulks fuel w !! i = Some b ->
               (S i < length (bulks fuel w))%nat ->
               (MAX_BULK_SIZE_IN_BYTES <= bulk_size b)%N) /\
  (self.queue (sender w) <> [] ->
   (bulk_size (self.queue (sender w)) < MAX_BULK_SIZE_IN_BYTES)%N ->
   bulks fuel w = [self.queue (sender w)]).
Proof.
  revert w. induction fuel as [|fuel IH]; intros w Hlen.
  - destruct (self.queue (sender w)) eqn:Hq; [|simpl in Hlen; lia].
    simpl. repeat split; auto; try congruence.
    intros i b Hi. rewrite lookup_nil in Hi. discriminate.
  - cbn [bulks].
    destruct (self.queue (sender w)) as [|e q] eqn:Hq.
    { simpl. repeat split; auto; try congruence.
      intros i b Hi. rewrite lookup_nil in Hi. discriminate. }
    unfold _get_messages_up_to_max_allowed_size. rewrite Hq.
    destruct (take_up_to_spec MAX_BULK_SIZE_IN_BYTES (e :: q) [] 0)
      as (taken & rest & Heq & Hsplit & Hne & Hbound & Hstop).
    { apply MAX_BULK_SIZE_IN_BYTES_pos. }
    { reflexivity. }
    rewrite Heq. simpl app in *.
    assert (taken <> []) as Htaken by (apply Hne; discriminate).
    set (w1 := set_sender (self.with_queue rest (sender w)) w).
    assert (self.queue (sender w1) = rest) as Hq1 by reflexivity.
    destruct (IH w1) as (Hconcat & Hall & Hfull & _).
    { rewrite Hq1. apply (f_equal (@length _)) in Hsplit.
      rewrite length_app in Hsplit. simpl in Hsplit, Hlen.
      destruct taken; [congruence|]. simpl in Hsplit. lia. }
    rewrite Hq1 in Hconcat.
    split; [simpl; rewrite Hconcat; symmetry; exact Hsplit|].
    split; [constructor; auto|].
    split.
    + intros [|i] b Hi Hlt.
      * simpl in Hi. inversion Hi; subst b. apply Hstop.
        intros Hrest. rewrite (bulks_of_empty_queue fuel w1) in Hlt by exact Hrest.
        simpl in Hlt. lia.
      * simpl in Hi, Hlt. apply (Hfull i b Hi). lia.
    + intros _ Hsmall.
      assert (rest = []) as Hrest.
      { destruct rest as [|r rest]; [reflexivity|]. exfalso.
        assert (MAX_BULK_SIZE_IN_BYTES <= bulk_size taken)%N
          by (apply Hstop; discriminate).
        rewrite Hsplit, bulk_size_app in Hsmall. lia. }
      rewrite (bulks_of_empty_queue fuel w1) by (rewrite Hq1; exact Hrest).
      rewrite Hsplit, Hrest, app_nil_r. reflexivity.
Qed.

(** C10. The cap of the assembler is the constant 1,048,576, whatever
    the sender: for every configuration and every world around it, the
    assembler takes from the queue the shortest front whose sizes add up
    to 1,048,576 or more, or the whole queue when it stays below (the
    bulk without its last entry is below 1,048,576; entries stay behind
    only when the bulk has reached 1,048,576), and changes nothing but
    the queue.  No attribute of the sender enters: two senders, whatever
    their configuration, cut the same first bulk from the same queue
    content, leave the same entries behind, and cut the same sequence
    of bulks, which is the partition of the queue into consecutive
    non-empty bulks that reach 1,048,576 with their last entry, the last
    bulk apart. *)
Theorem bulk_cap_is_not_configurable (s1 s2 : LogzioSender) (w1 w2 : World)
    (q : list LogEntry) (fuel : nat) :
  let a1 := _get_messages_up_to_max_allowed_size
              (set_sender (self.with_queue q s1) w1) in
  let a2 := _get_messages_up_to_max_allowed_size
              (set_sender (self.with_queue q s2) w2) in
  let bs := bulks fuel (set_sender (self.with_queue q s1) w1) in
  MAX_BULK_SIZE_IN_BYTES = 1048576%N /\
  fst a1 = fst a2 /\
  self.queue (sender (snd a1)) = self.queue (sender (snd a2)) /\
  bs = bulks fuel (set_sender (self.with_queue q s2) w2) /\
  (exists logs_list rest,
     fst a1 = Ok logs_list /\
     snd a1 = set_sender (self.with_queue rest s1) w1 /\
     q = logs_list ++ rest /\
     (q <> [] -> logs_list <> []) /\
     (bulk_size (removelast logs_list) < 1048576)%N /\
     (rest <> [] -> (1048576 <= bulk_size logs_list)%N)) /\
  ((length q <= fuel)%nat ->
   concat bs = q /\
   Forall (fun b => b <> [] /\ (bulk_size (removelast b) < 1048576)%N) bs /\
   (forall i b, bs !! i = Some b -> (S i < length bs)%nat ->
                (1048576 <= bulk_size b)%N)).
Proof.
  cbn zeta. split; [reflexivity|].
  split; [|split; [|split; [|split]]].
  - unfold _get_messages_up_to_max_allowed_size. simpl.
    destruct (take_up_to _ _ _ _); reflexivity.
  - unfold _get_messages_up_to_max_allowed_size. simpl.
    destruct (take_up_to _ _ _ _); reflexivity.
  - revert s1 s2 w1 w2 q.
    induction fuel as [|fuel IH]; intros s1 s2 w1 w2 q; [reflexivity|].
    cbn [bulks]. simpl self.queue.
    destruct q as [|e q]; [reflexivity|].
    unfold _get_messages_up_to_max_allowed_size. simpl self.queue.
    destruct (take_up_to MAX_BULK_SIZE_IN_BYTES (e :: q) [] 0) as [l rest].
    f_equal. apply IH.
  - unfold _get_messages_up_to_max_allowed_size. simpl self.queue.
    destruct (take_up_to_spec MAX_BULK_SIZE_IN_BYTES q [] 0)
      as (taken & rest & Heq & Hsplit & Hne & Hbound & Hstop).
    { apply MAX_BULK_SIZE_IN_BYTES_pos. }
    { reflexivity. }
    rewrite Heq. simpl app in *.
    change MAX_BULK_SIZE_IN_BYTES with 1048576%N in Hbound, Hstop.
    exists taken, rest. repeat split; auto.
  - intros Hlen.
    destruct (bulks_spec fuel (set_sender (self.with_queue q s1) w1))
      as (Hconcat & Hall & Hfull & _).
    { exact Hlen. }
    change MAX_BULK_SIZE_IN_BYTES with 1048576%N in Hall, Hfull.
    split; [exact Hconcat|]. split; [exact Hall|exact Hfull].
Qed.

(** ** Further properties of the sender *)

(** *** The bulks cut from a queue *)

(** Called until the queue is empty, the assembler cuts the queue into
    consecutive bulks: none is empty, each keeps the soft cap, and every
    bulk that is followed by another has reached the cap.  A queue whose
    total is under the cap is one bulk. *)
Theorem bulks_partition_queue (w : World) :
  let q := self.queue (sender w) in
  let bs := bulks (length q) w in
  concat bs = q /\
  Forall (fun b => b <> [] /\
                   (bulk_size (removelast b) < MAX_BULK_SIZE_IN_BYTES)%N) bs /\
  (forall i b, bs !! i = Some b -> (S i < length bs)%nat ->
               (MAX_BULK_SIZE_IN_BYTES <= bulk_size b)%N) /\
  (q <> [] -> (bulk_size q < MAX_BULK_SIZE_IN_BYTES)%N -> bs = [q]).
Proof.
  cbn zeta. apply bulks_spec. lia.
Qed.

(** *** Entries and lines *)

Lemma one_line_app s t : one_line (s +:+ t) = one_line s && one_line t.
Proof.
  induction s as [|c s IH]; simpl; [reflexivity|].
  rewrite IH. destruct (Ascii.eqb c "010"); reflexivity.
Qed.

Lemma lines_of_one_line s : one_line s = true -> lines_of s = [s].
Proof.
  induction s as [|c s IH]; simpl; [reflexivity|].
  destruct (Ascii.eqb c "010"); simpl; [discriminate|].
  intros H. rewrite (IH H). reflexivity.
Qed.

Lemma lines_of_first_line s t :
  one_line s = true -> lines_of (s +:+ newline +:+ t) = s :: lines_of t.
Proof.
  induction s as [|c s IH]; simpl; [reflexivity|].
  destruct (Ascii.eqb c "010"); simpl; [discriminate|].
  intros H. rewrite (IH H). reflexivity.
Qed.

Lemma lines_of_not_nil s : lines_of s <> [].
Proof.
  destruct s as [|c s]; simpl; [discriminate|].
  destruct (Ascii.eqb c "010"); [discriminate|].
  destruct (lines_of s); discriminate.
Qed.

Lemma lines_of_join_entries (logs_list : list LogEntry) :
  logs_list <> [] ->
  Forall (fun e => one_line e = true) logs_list ->
  lines_of (join newline logs_list) = logs_list.
Proof.
  intros Hne Hall.
  revert Hne. induction Hall as [|e l He Hl IH]; intros Hne;
    [exfalso; apply Hne; reflexivity|].
  destruct l as [|e' l].
  - simpl. apply lines_of_one_line. exact He.
  - change (join newline (e :: e' :: l))
      with (e +:+ newline +:+ join newline (e' :: l)).
    rewrite lines_of_first_line by exact He.
    rewrite IH by discriminate. reflexivity.
Qed.

(** The newline-joined text of a bulk splits back into its entries:
    what is sent in a POST and what is written to a backup file can be
    read back line by line, when no entry has a newline in it and there
    is at least one entry; and the joined text is one line exactly when
    the bulk has a single entry.  (The empty bulk joins to the empty
    text, which reads back as one empty line.) *)
Theorem lines_of_join (logs_list : list LogEntry) :
  logs_list <> [] ->
  Forall (fun e => one_line e = true) logs_list ->
  lines_of (join newline logs_list) = logs_list /\
  length (lines_of (join newline logs_list)) = length logs_list /\
  lines_of (join newline []) = [EmptyString].
Proof.
  intros Hne Hall.
  rewrite (lines_of_join_entries logs_list Hne Hall). auto.
Qed.

Lemma one_line_join sep l :
  one_line sep = true ->
  Forall (fun e => one_line e = true) l ->
  one_line (join sep l) = true.
Proof.
  intros Hsep Hall. induction Hall as [|e l He Hl IH]; [reflexivity|].
  destruct l as [|e' l]; [exact He|].
  change (join sep (e :: e' :: l)) with (e +:+ sep +:+ join sep (e' :: l)).
  rewrite !one_line_app, He, Hsep, IH. reflexivity.
Qed.

(** *** What a delivery leaves in the trace, whatever the endpoint does *)

Lemma string_app_nil_r s : s +:+ EmptyString = s.
Proof.
  induction s as [|c s IH]; [reflexivity|].
  change (String c (s +:+ EmptyString) = String c s). rewrite IH. reflexivity.
Qed.

Lemma string_app_assoc s t u : (s +:+ t) +:+ u = s +:+ (t +:+ u).
Proof.
  induction s as [|c s IH]; [reflexivity|].
  change (String c ((s +:+ t) +:+ u) = String c (s +:+ (t +:+ u))).
  rewrite IH. reflexivity.
Qed.

Lemma files_grow_refl fs : files_grow fs fs.
Proof. intros f. exists EmptyString. rewrite string_app_nil_r. reflexivity. Qed.

Lemma files_grow_trans fs1 fs2 fs3 :
  files_grow fs1 fs2 -> files_grow fs2 fs3 -> files_grow fs1 fs3.
Proof.
  intros H12 H23 f. destruct (H12 f) as (s1 & E1). destruct (H23 f) as (s2 & E2).
  exists (s1 +:+ s2). rewrite E2, E1. apply string_app_assoc.
Qed.

Lemma files_grow_insert fs filename contents :
  files_grow fs (<[filename := file_contents fs filename +:+ contents]> fs).
Proof.
  intros f. unfold file_contents at 1.
  destruct (decide (f = filename)) as [->|Hne].
  - rewrite lookup_insert_eq. eauto.
  - rewrite lookup_insert_ne by congruence.
    exists EmptyString. rewrite string_app_nil_r. reflexivity.
Qed.

Lemma post_requests_app tr1 tr2 :
  post_requests (tr1 ++ tr2) = post_requests tr1 ++ post_requests tr2.
Proof.
  induction tr1 as [|e tr1 IH]; simpl; [reflexivity|].
  destruct e; simpl; congruence.
Qed.

Lemma failure_log_is_log s current_try r :
  exists level msg,
    failure_log s current_try r = Log level msg /\ level <> ERROR.
Proof. destruct r; simpl; eexists _, _; split; eauto; discriminate. Qed.

(** The retry loop against any transport: at most one POST per try, all
    with the same request; a sleep only after a POST; no write, no
    error line; and it is left with [should_backup_to_disk] true only
    after every try has been made. *)
Lemma for_current_try_events tries logs_list d sb w :
  exists b w' evs,
    for_current_try tries logs_list sent_headers d sb w = (Ok b, w') /\
    trace w' = trace w ++ evs /\
    post_requests evs =
      repeat (request_for (sender w) logs_list) (count_events is_post evs) /\
    (count_events is_post evs <= length tries)%nat /\
    (count_events is_sleep evs <= count_events is_post evs)%nat /\
    count_events is_write evs = 0%nat /\
    count_events is_thread_start evs = 0%nat /\
    count_events is_error_log evs = 0%nat /\
    (b = true -> count_events is_post evs = length tries) /\
    (b = true -> sb = true) /\
    now w' = (now w + N.of_nat (count_events is_sleep evs) * d)%N.
Proof.
  revert w. induction tries as [|current_try tries IH]; intros w.
  - exists sb, w, []. simpl. rewrite app_nil_r.
    repeat split; auto; lia.
  - rewrite for_current_try_unfold.
    assert (exists b w' evs,
      for_current_try tries logs_list sent_headers d sb
        (slept d (emit (failure_log (sender w) current_try
                                    (transport w (posts w)))
                       (posted logs_list w))) = (Ok b, w') /\
      trace w' = trace w ++ evs /\
      post_requests evs =
        repeat (request_for (sender w) logs_list) (count_events is_post evs) /\
      (count_events is_post evs <= length (current_try :: tries))%nat /\
      (count_events is_sleep evs <= count_events is_post evs)%nat /\
      count_events is_write evs = 0%nat /\
      count_events is_thread_start evs = 0%nat /\
      count_events is_error_log evs = 0%nat /\
      (b = true -> count_events is_post evs = length (current_try :: tries)) /\
      (b = true -> sb = true) /\
      now w' = (now w + N.of_nat (count_events is_sleep evs) * d)%N) as Hnext.
    { destruct (failure_log_is_log (sender w) current_try (transport w (posts w)))
        as (level & msg & Hlog & Hlevel).
      rewrite Hlog.
      destruct (IH (slept d (emit (Log level msg) (posted logs_list w))))
        as (b & w' & evs & Heq & Htr & Hreq & Hposts & Hsleeps & Hwr & Hts
            & Herr & Hb & Hsb & Hnow).
      exists b, w',
        (Post (request_for (sender w) logs_list) (transport w (posts w))
         :: Log level msg :: Sleep d :: evs).
      simpl in Htr, Hreq, Hnow.
      split; [exact Heq|].
      split; [rewrite Htr, <- !app_assoc; reflexivity|].
      assert (is_error_log (Log level msg) = false) as Hnoerr
        by (destruct level; try reflexivity; congruence).
      cbn [count_events post_requests is_post is_sleep is_write is_thread_start].
      rewrite Hnoerr. simpl. rewrite Hreq.
      repeat split; auto; try lia. }
    assert (forall ev, is_post ev = false -> is_sleep ev = false ->
              is_write ev = false -> is_thread_start ev = false ->
              is_error_log ev = false -> post_requests [ev] = [] ->
      exists b w' evs,
        (Ok false, emit ev (posted logs_list w)) = (Ok b, w') /\
        trace w' = trace w ++ evs /\
        post_requests evs =
          repeat (request_for (sender w) logs_list) (count_events is_post evs) /\
        (count_events is_post evs <= length (current_try :: tries))%nat /\
        (count_events is_sleep evs <= count_events is_post evs)%nat /\
        count_events is_write evs = 0%nat /\
        count_events is_thread_start evs = 0%nat /\
        count_events is_error_log evs = 0%nat /\
        (b = true -> count_events is_post evs = length (current_try :: tries)) /\
        (b = true -> sb = true) /\
        now w' = (now w + N.of_nat (count_events is_sleep evs) * d)%N) as Hstop.
    { intros ev H1 H2 H3 H4 H5 H6.
      exists false, (emit ev (posted logs_list w)),
        [Post (request_for (sender w) logs_list) (transport w (posts w)); ev].
      split; [reflexivity|].
      split; [simpl; rewrite <- app_assoc; reflexivity|].
      cbn [count_events post_requests is_post is_sleep is_write is_thread_start
           is_error_log].
      simpl in H6. rewrite H1, H2, H3, H4, H5.
      destruct ev; simpl in *; try discriminate;
        repeat split; auto; try lia; discriminate. }
    destruct (transport w (posts w)) as [response|msg] eqn:Hreply.
    + destruct (status_code response =? 200)%Z; [apply Hstop; reflexivity|].
      destruct (status_code response =? 400)%Z; [apply Hstop; reflexivity|].
      destruct (status_code response =? 401)%Z; [apply Hstop; reflexivity|].
      exact Hnext.
    + exact Hnext.
Qed.

Ltac close_events :=
  repeat split; auto using files_grow_refl, files_grow_insert;
  try lia; try congruence;
  try (match goal with
       | H : _ \/ _ \/ _ |- _ => destruct H as [?|[?|?]]; congruence || lia
       end);
  eauto.

(** The body of the while loop against any transport. *)
Lemma drain_logs_list_events logs_list w :
  let n := self.number_of_retries (sender w) in
  exists r w' evs,
    drain_logs_list logs_list w = (r, w') /\
    trace w' = trace w ++ evs /\
    evs <> [] /\
    post_requests evs =
      repeat (request_for (sender w) logs_list) (count_events is_post evs) /\
    (count_events is_post evs <= Z.to_nat n)%nat /\
    (count_events is_sleep evs <= count_events is_post evs)%nat /\
    (count_events is_write evs <= 1)%nat /\
    count_events is_thread_start evs = 0%nat /\
    (count_events is_write evs = 0%nat -> files w' = files w) /\
    (count_events is_write evs = 1%nat \/ r <> Ok tt \/
     count_events is_error_log evs <> 0%nat ->
     count_events is_post evs = Z.to_nat n /\
     self.backup_logs (sender w) = true) /\
    (r <> Ok tt -> count_events is_write evs = 0%nat) /\
    files_grow (files w) (files w') /\
    sender w' = sender w /\
    now w' = (now w + N.of_nat (count_events is_sleep evs)
                      * self.retry_timeout (sender w))%N /\
    (r = Ok tt \/ exists filename, r = Raise (OSError filename)).
Proof.
  intros n. rewrite drain_logs_list_unfold. cbn zeta. fold n.
  set (w0 := emit (Log DEBUG (StartingToDrain (length logs_list))) w).
  destruct (for_current_try_events (range n) logs_list
              (self.retry_timeout (sender w)) true w0)
    as (b & w1 & evs & Heq & Htr & Hreq & Hposts & Hsleeps & Hwr & Hts & Herr
        & Hb & _ & Hnow).
  destruct (for_current_try_spec (range n) logs_list
              (self.retry_timeout (sender w)) true w0)
    as (b' & w1' & sent & Heq' & Hs & Hf & _).
  rewrite Heq in Heq'. inversion Heq'; subst b' w1'. clear Heq'.
  rewrite Heq. rewrite length_range in Hposts, Hb.
  simpl in Htr, Hreq, Hs, Hf, Hnow.
  rewrite Hs.
  destruct b; simpl andb.
  - destruct (self.backup_logs (sender w)) eqn:Hbackup.
    + rewrite backup_logs_unfold. cbn zeta. cbn [now emit open_denied files].
      destruct (open_denied w1 _).
      * eexists _, _,
          (Log DEBUG (StartingToDrain (length logs_list)) :: evs
           ++ [Log ERROR (CouldNotSend n);
               Log INFO (BackingUpYourLogs (strftime (now w1)))]).
        split; [reflexivity|].
        split; [simpl; rewrite Htr, <- !app_assoc; reflexivity|].
        split; [discriminate|].
        cbn [count_events post_requests is_post is_sleep is_write
             is_thread_start is_error_log].
        rewrite !count_events_app, post_requests_app. simpl.
        rewrite Hwr, Hts, ?Nat.add_0_r, app_nil_r, Hreq, Hf.
        close_events.
      * eexists _, _,
          (Log DEBUG (StartingToDrain (length logs_list)) :: evs
           ++ [Log ERROR (CouldNotSend n);
               Log INFO (BackingUpYourLogs (strftime (now w1)));
               Write (backup_file (now w1)) (join newline logs_list)]).
        split; [reflexivity|].
        split; [simpl; rewrite Htr, <- !app_assoc; reflexivity|].
        split; [discriminate|].
        cbn [count_events post_requests is_post is_sleep is_write
             is_thread_start is_error_log].
        rewrite !count_events_app, post_requests_app. simpl.
        rewrite Hwr, Hts, ?Nat.add_0_r, app_nil_r, Hreq, Hf.
        close_events.
    + exists (Ok tt), w1,
        (Log DEBUG (StartingToDrain (length logs_list)) :: evs).
      split; [reflexivity|].
      split; [rewrite Htr, <- app_assoc; reflexivity|]. split; [discriminate|].
      cbn [count_events post_requests is_post is_sleep is_write
           is_thread_start is_error_log].
      simpl. rewrite Hwr, Hts, Hreq, Herr, Hf.
      close_events.
  - exists (Ok tt), w1,
      (Log DEBUG (StartingToDrain (length logs_list)) :: evs).
    split; [reflexivity|].
      split; [rewrite Htr, <- app_assoc; reflexivity|]. split; [discriminate|].
    cbn [count_events post_requests is_post is_sleep is_write
         is_thread_start is_error_log].
    simpl. rewrite Hwr, Hts, Hreq, Herr, Hf.
    close_events.
Qed.

Lemma Forall_repeat_same {A} (P : A -> Prop) x n : P x -> Forall P (repeat x n).
Proof. intros Hx. induction n; simpl; constructor; auto. Qed.

(** [_flush_queue] against any transport. *)
Lemma while_queue_not_empty_events fuel w :
  (length (self.queue (sender w)) <= fuel)%nat ->
  exists r w' evs,
    while_queue_not_empty fuel w = (r, w') /\
    trace w' = trace w ++ evs /\
    (self.queue (sender w) <> [] -> evs <> []) /\
    count_events is_thread_start evs = 0%nat /\
    Forall (request_of (sender w)) (post_requests evs) /\
    (length (self.queue (sender w')) <= length (self.queue (sender w)))%nat /\
    (count_events is_post evs <=
     Z.to_nat (self.number_of_retries (sender w))
     * (length (self.queue (sender w)) - length (self.queue (sender w'))))%nat /\
    (count_events is_sleep evs <= count_events is_post evs)%nat /\
    files_grow (files w) (files w') /\
    (self.backup_logs (sender w) = false ->
     r = Ok tt /\ count_events is_write evs = 0%nat /\
     count_events is_error_log evs = 0%nat /\ files w' = files w) /\
    now w' = (now w + N.of_nat (count_events is_sleep evs)
                      * self.retry_timeout (sender w))%N.
Proof.
  revert w. induction fuel as [|fuel IH]; intros w Hlen.
  - destruct (self.queue (sender w)) as [|e q] eqn:Hq; [|simpl in Hlen; lia].
    exists (Ok tt), w, []. simpl. rewrite Hq, app_nil_r.
    repeat split; auto using files_grow_refl; try lia; try constructor.
  - cbn [while_queue_not_empty].
    destruct (self.queue (sender w)) as [|e q] eqn:Hq.
    { exists (Ok tt), w, []. simpl. rewrite ?Hq, app_nil_r.
      repeat split; auto using files_grow_refl; try lia; try constructor. }
    unfold bind at 1.
    destruct (assembler_takes_front w)
      as (logs_list & w1 & Hget & Hne & Hsplit & (Ht1 & Hm1 & Ho1 & Hs1) & Hc1 & Htr1).
    rewrite Hget. rewrite Hq in Hne, Hsplit.
    assert (logs_list <> []) as Hlogs by (apply Hne; discriminate).
    assert (files w1 = files w /\ now w1 = now w) as (Hf1 & Hn1).
    { unfold _get_messages_up_to_max_allowed_size in Hget.
      destruct (take_up_to _ _ _ _). inversion Hget; subst. auto. }
    unfold bind at 1.
    destruct (drain_logs_list_events logs_list w1)
      as (r1 & w2 & evs1 & Hdrain & Htr2 & Hevs1 & Hreq1 & Hposts1 & Hsleeps1
          & Hwr1 & Hts1 & Hnowrite & Hexh & Hraise & Hgrow1 & Hs2 & Hnow2 & Hr1).
    cbn zeta in *. rewrite Hdrain.
    assert (self.url (sender w1) = self.url (sender w) /\
            self.network_timeout (sender w1) = self.network_timeout (sender w) /\
            self.number_of_retries (sender w1) = self.number_of_retries (sender w) /\
            self.backup_logs (sender w1) = self.backup_logs (sender w) /\
            self.retry_timeout (sender w1) = self.retry_timeout (sender w))
      as (Hurl & Hnt & Hnr & Hbl & Hrt).
    { rewrite Hs1. simpl. auto. }
    assert (Forall (request_of (sender w)) (post_requests evs1)) as Hshape1.
    { rewrite Hreq1. apply Forall_repeat_same.
      unfold request_of, request_for. simpl. auto. }
    assert (length (e :: q) = length logs_list + length (self.queue (sender w1)))%nat
      as Hlens by (rewrite Hsplit, length_app; reflexivity).
    cbn [length] in Hlens, Hlen.
    assert (1 <= length logs_list)%nat as Hone
      by (destruct logs_list; [congruence|simpl; lia]).
    rewrite Hnr, Hrt, Hbl, Hn1 in *. rewrite Hf1 in Hgrow1, Hnowrite.
    destruct r1 as [[]|exc|].
    + destruct (IH w2) as (r & w' & evs2 & Heq & Htr & Hevs2 & Hts2 & Hshape2
                           & Hlen2 & Hposts2 & Hsleeps2 & Hgrow2 & Hnb2 & Hnow).
      { rewrite Hs2. simpl in Hlen. lia. }
      rewrite ?Hs2, ?Hurl, ?Hnt, ?Hnr, ?Hbl, ?Hrt in *.
      exists r, w', (evs1 ++ evs2).
      split; [exact Heq|].
      split; [rewrite Htr, Htr2, Htr1, app_assoc; reflexivity|].
      split; [intros _ H; apply app_eq_nil in H; tauto|].
      rewrite !count_events_app, post_requests_app.
      split; [lia|].
      split.
      { apply Forall_app. split; [exact Hshape1|].
        eapply Forall_impl; [exact Hshape2|].
        unfold request_of. intros rq. rewrite Hurl, Hnt. auto. }
      cbn [length].
      split; [lia|]. split; [nia|]. split; [lia|].
      split; [eapply files_grow_trans; eassumption|].
      split.
      * intros Hb. destruct (Hnb2 Hb) as (-> & Hw2 & He2 & Hfiles2).
        assert (count_events is_write evs1 = 0%nat) as Hw1.
        { destruct (Nat.eq_dec (count_events is_write evs1) 1) as [H1|H1].
          - destruct Hexh as (_ & Hyes); [auto|congruence].
          - lia. }
        assert (count_events is_error_log evs1 = 0%nat) as He1.
        { destruct (Nat.eq_dec (count_events is_error_log evs1) 0) as [H0|H0];
            [exact H0|].
          destruct Hexh as (_ & Hyes); [auto|congruence]. }
        rewrite Hw1, Hw2, He1, He2, Hfiles2, (Hnowrite Hw1). auto.
      * rewrite Hnow, Hnow2. lia.
    + exists (Raise exc), w2, evs1.
      rewrite Hs2.
      split; [reflexivity|].
      split; [rewrite Htr2, Htr1; reflexivity|].
      split; [auto|]. split; [exact Hts1|]. split; [exact Hshape1|].
      split; [simpl; lia|]. split; [simpl length; nia|]. split; [exact Hsleeps1|].
      split; [exact Hgrow1|].
      split; [|exact Hnow2].
      intros Hb. destruct Hexh as (_ & Hyes); [right; left; discriminate|congruence].
    + destruct Hr1 as [H|(f & H)]; discriminate.
Qed.

(** *** Tries that fail, then a reply that ends the loop *)

Lemma for_current_try_skip_failed tries1 tries2 logs_list d sb w :
  (forall i, (i < length tries1)%nat ->
             reading (transport w (posts w + i)%nat) = Transient) ->
  for_current_try (tries1 ++ tries2) logs_list sent_headers d sb w =
  for_current_try tries2 logs_list sent_headers d sb
                  (after_failed_tries logs_list d tries1 w).
Proof.
  revert w. induction tries1 as [|current_try tries1 IH]; intros w Hall.
  - reflexivity.
  - cbn [app after_failed_tries]. rewrite for_current_try_unfold.
    pose proof (Hall 0%nat ltac:(simpl; lia)) as H0.
    rewrite Nat.add_0_r in H0.
    assert (forall w', posts w' = S (posts w) -> transport w' = transport w ->
              for_current_try (tries1 ++ tries2) logs_list sent_headers d sb w' =
              for_current_try tries2 logs_list sent_headers d sb
                              (after_failed_tries logs_list d tries1 w')) as Hnext.
    { intros w' Hp Ht. apply IH. intros i Hi. rewrite Hp, Ht.
      replace (S (posts w) + i)%nat with (posts w + S i)%nat by lia.
      apply Hall. simpl. lia. }
    unfold reading in H0.
    destruct (transport w (posts w)) as [response|msg].
    + destruct (status_code response =? 200)%Z; [discriminate|].
      destruct (status_code response =? 400)%Z; [discriminate|].
      destruct (status_code response =? 401)%Z; [discriminate|].
      apply Hnext; reflexivity.
    + apply Hnext; reflexivity.
Qed.

Lemma range_split n k :
  (k < Z.to_nat n)%nat ->
  exists later,
    range n = map Z.of_nat (seq 0 k) ++ Z.of_nat k :: later.
Proof.
  intros Hk. unfold range.
  replace (Z.to_nat n) with (k + S (Z.to_nat n - S k))%nat by lia.
  rewrite seq_app, map_app. simpl. eauto.
Qed.

(** The body of the while loop when [k] tries fail and the next reply
    is 200, 400 or 401: the loop stops there, nothing is backed up. *)
Lemma drain_logs_list_until_final logs_list w k :
  let n := self.number_of_retries (sender w) in
  let d := self.retry_timeout (sender w) in
  (k < Z.to_nat n)%nat ->
  (forall i, (i < k)%nat ->
             reading (transport w (posts w + i)%nat) = Transient) ->
  reading (transport w (posts w + k)%nat) <> Transient ->
  exists level msg,
    level <> ERROR /\
    drain_logs_list logs_list w =
    (Ok tt,
     emit (Log level msg)
          (posted logs_list
             (after_failed_tries logs_list d (map Z.of_nat (seq 0 k))
                (emit (Log DEBUG (StartingToDrain (length logs_list))) w)))).
Proof.
  intros n d Hk Hfail Hfinal.
  rewrite drain_logs_list_unfold. cbn zeta. fold n d.
  destruct (range_split n k Hk) as (later & ->).
  set (w0 := emit (Log DEBUG (StartingToDrain (length logs_list))) w).
  rewrite for_current_try_skip_failed
    by (intros i Hi; rewrite length_map, length_seq in Hi; apply Hfail; exact Hi).
  destruct (after_failed_tries_frame logs_list d (map Z.of_nat (seq 0 k)) w0)
    as (Hs & Hf & Ht & Hm & Ho & Hc & Hp & Hnow & Htr).
  cbn zeta in *. rewrite length_map, length_seq in Hp.
  set (wk := after_failed_tries logs_list d (map Z.of_nat (seq 0 k)) w0) in *.
  rewrite for_current_try_unfold. rewrite Ht, Hp. simpl transport. simpl posts.
  unfold reading in Hfinal.
  destruct (transport w (posts w + k)%nat) as [response|failure];
    [|congruence].
  destruct (status_code response =? 200)%Z.
  { exists DEBUG, (SuccessfullySent (length logs_list)).
    split; [discriminate|reflexivity]. }
  destruct (status_code response =? 400)%Z.
  { exists INFO, (Got400 (text response)). split; [discriminate|reflexivity]. }
  destruct (status_code response =? 401)%Z; [|congruence].
  exists INFO, NotAuthorized. split; [discriminate|reflexivity].
Qed.

(** Retries, then a final reply: when the first [k] tries of a bulk
    fail in a way the loop retries and try [k+1] (one of the allowed
    tries) is answered 200, 400 or 401, the delivery makes exactly
    [k+1] POSTs and [k] sleeps of [retry_timeout], writes no file and
    logs no error; the bulk counts as accepted exactly when that reply
    is 200. *)
Theorem retry_until_final_reply (logs_list : list LogEntry) (w : World) (k : nat) :
  let n := self.number_of_retries (sender w) in
  let d := self.retry_timeout (sender w) in
  (k < Z.to_nat n)%nat ->
  (forall i, (i < k)%nat ->
             reading (transport w (posts w + i)%nat) = Transient) ->
  reading (transport w (posts w + k)%nat) <> Transient ->
  exists w',
    drain_logs_list logs_list w = (Ok tt, w') /\
    count_events is_post (trace w') = (count_events is_post (trace w) + S k)%nat /\
    count_events is_sleep (trace w') = (count_events is_sleep (trace w) + k)%nat /\
    count_events is_write (trace w') = count_events is_write (trace w) /\
    count_events is_error_log (trace w') = count_events is_error_log (trace w) /\
    now w' = (now w + N.of_nat k * d)%N /\
    files w' = files w /\
    delivered_bodies (trace w') =
    delivered_bodies (trace w) ++
    match reading (transport w (posts w + k)%nat) with
    | Accepted => [join newline logs_list]
    | _ => []
    end.
Proof.
  intros n d Hk Hfail Hfinal.
  destruct (drain_logs_list_until_final logs_list w k Hk Hfail Hfinal)
    as (level & msg & Hlevel & ->).
  fold n d.
  assert (is_error_log (Log level msg) = false) as Hnoerr
    by (destruct level; try reflexivity; congruence).
  set (ev := Log level msg) in *.
  assert (is_post ev = false /\ is_sleep ev = false /\ is_write ev = false /\
          delivered_bodies [ev] = []) as (Hev1 & Hev2 & Hev3 & Hev4)
    by (subst ev; simpl; auto).
  clearbody ev.
  set (w0 := emit (Log DEBUG (StartingToDrain (length logs_list))) w).
  destruct (after_failed_tries_frame logs_list d (map Z.of_nat (seq 0 k)) w0)
    as (Hs & Hf & Ht & Hm & Ho & Hc & Hp & Hnow & Htr).
  cbn zeta in *. rewrite length_map, length_seq in Hp, Hnow.
  eexists. split; [reflexivity|].
  simpl. rewrite Htr, Hf, Hnow, Ht, Hp. simpl.
  rewrite !count_events_app, !delivered_bodies_app.
  rewrite count_posts_retry_events, count_sleeps_retry_events,
    count_writes_retry_events, length_map, length_seq.
  assert (count_events is_error_log
            (retry_events (sender w) logs_list d (transport w) (posts w)
                          (map Z.of_nat (seq 0 k))) = 0%nat) as Herr.
  { generalize (posts w). generalize (map Z.of_nat (seq 0 k)).
    induction l as [|t l IH]; intros p; simpl; [reflexivity|].
    rewrite IH. destruct (transport w p); reflexivity. }
  assert (delivered_bodies
            (retry_events (sender w) logs_list d (transport w) (posts w)
                          (map Z.of_nat (seq 0 k))) = []) as Hdel.
  { assert (forall l p,
              (forall i, (i < length l)%nat ->
                         reading (transport w (p + i)%nat) = Transient) ->
              delivered_bodies
                (retry_events (sender w) logs_list d (transport w) p l) = [])
      as Hgen.
    { induction l as [|t l IH]; intros p Hl; simpl; [reflexivity|].
      pose proof (Hl 0%nat ltac:(simpl; lia)) as H0.
      rewrite Nat.add_0_r in H0. rewrite H0.
      assert (delivered_bodies
                (retry_events (sender w) logs_list d (transport w) (S p) l) = [])
        as ->.
      { apply IH. intros i Hi.
        replace (S p + i)%nat with (p + S i)%nat by lia. apply Hl. simpl. lia. }
      destruct (transport w p); reflexivity. }
    apply Hgen. intros i Hi. rewrite length_map, length_seq in Hi. auto. }
  rewrite Herr, Hdel. cbn [count_events is_post is_sleep is_write is_error_log].
  rewrite Hev1, Hev2, Hev3, Hnoerr, Hev4. simpl.
  rewrite ?app_nil_r.
  repeat split; lia.
Qed.

(** No try at all: with [number_of_retries] zero or negative the loop
    makes no POST.  Every bulk is treated as undeliverable at once: it
    is written to the backup file when backup is on and the file can be
    opened, and dropped otherwise; nothing is ever sent. *)
Theorem no_tries_no_post (logs_list : list LogEntry) (w : World) :
  (self.number_of_retries (sender w) <= 0)%Z ->
  let w' := snd (drain_logs_list logs_list w) in
  count_events is_post (trace w') = count_events is_post (trace w) /\
  count_events is_sleep (trace w') = count_events is_sleep (trace w) /\
  delivered_bodies (trace w') = delivered_bodies (trace w) /\
  now w' = now w /\
  (self.backup_logs (sender w) = true ->
   open_denied w (backup_file (now w)) = false ->
   files w' !! backup_file (now w) =
   Some (file_contents (files w) (backup_file (now w))
         +:+ join newline logs_list)) /\
  (self.backup_logs (sender w) = false -> files w' = files w).
Proof.
  intros Hn. cbn zeta.
  rewrite drain_logs_list_all_fail by (intros i Hi; lia).
  cbn zeta. unfold range.
  replace (Z.to_nat (self.number_of_retries (sender w))) with 0%nat by lia.
  cbn [seq map after_failed_tries].
  destruct (self.backup_logs (sender w)).
  - rewrite backup_logs_unfold. cbn zeta. cbn [now emit open_denied files].
    destruct (open_denied w (backup_file (now w))) eqn:Hopen; simpl;
      rewrite !count_events_app, !delivered_bodies_app; simpl;
      rewrite ?app_nil_r;
      repeat split; try lia; try congruence.
    intros _ _. apply lookup_insert_eq.
  - simpl. rewrite !count_events_app, !delivered_bodies_app. simpl.
    rewrite ?app_nil_r. repeat split; try lia; congruence.
Qed.

(** *** A flush as a whole *)

Lemma bulks_depend_on_queue fuel w1 w2 :
  self.queue (sender w1) = self.queue (sender w2) ->
  bulks fuel w1 = bulks fuel w2.
Proof.
  revert w1 w2. induction fuel as [|fuel IH]; intros w1 w2 Hq; [reflexivity|].
  cbn [bulks]. unfold _get_messages_up_to_max_allowed_size. rewrite Hq.
  destruct (self.queue (sender w2)) as [|e q]; [reflexivity|].
  destruct (take_up_to _ _ _ _) as [l rest]. f_equal. apply IH. reflexivity.
Qed.

Lemma lines_of_joined_bulks (bs : list (list LogEntry)) :
  Forall (fun b => b <> []) bs ->
  Forall (fun e => one_line e = true) (concat bs) ->
  map lines_of (map (join newline) bs) = bs.
Proof.
  induction bs as [|b bs IH]; intros Hne Hone; [reflexivity|].
  inversion Hne; subst. simpl in Hone. apply Forall_app in Hone.
  destruct Hone as [Hb Hbs].
  simpl. rewrite lines_of_join_entries, IH by assumption. reflexivity.
Qed.

(** [_flush_queue] against an endpoint that accepts every POST. *)
Lemma while_queue_not_empty_accepted fuel w :
  (forall k, reading (transport w k) = Accepted) ->
  (1 <= self.number_of_retries (sender w))%Z ->
  (length (self.queue (sender w)) <= fuel)%nat ->
  exists w',
    while_queue_not_empty fuel w = (Ok tt, w') /\
    self.queue (sender w') = [] /\
    delivered_bodies (trace w') =
      delivered_bodies (trace w) ++ map (join newline) (bulks fuel w) /\
    count_events is_post (trace w') =
      (count_events is_post (trace w) + length (bulks fuel w))%nat /\
    count_events is_sleep (trace w') = count_events is_sleep (trace w) /\
    count_events is_write (trace w') = count_events is_write (trace w) /\
    now w' = now w /\ files w' = files w.
Proof.
  revert w. induction fuel as [|fuel IH]; intros w Hall Hn Hlen.
  - destruct (self.queue (sender w)) as [|e q] eqn:Hq; [|simpl in Hlen; lia].
    exists w. simpl. rewrite Hq, app_nil_r. repeat split; lia.
  - cbn [while_queue_not_empty bulks].
    destruct (self.queue (sender w)) as [|e q] eqn:Hq.
    { exists w. simpl. rewrite ?Hq, app_nil_r. repeat split; lia. }
    unfold bind at 1.
    destruct (assembler_takes_front w)
      as (logs_list & w1 & Hget & Hne & Hsplit & (Ht1 & Hm1 & Ho1 & Hs1) & Hc1 & Htr1).
    rewrite Hget. rewrite Hq in Hne, Hsplit.
    assert (files w1 = files w /\ now w1 = now w) as (Hf1 & Hn1).
    { unfold _get_messages_up_to_max_allowed_size in Hget.
      destruct (take_up_to _ _ _ _). inversion Hget; subst. auto. }
    assert (self.number_of_retries (sender w1) = self.number_of_retries (sender w))
      as Hnr by (rewrite Hs1; reflexivity).
    unfold bind at 1.
    destruct (drain_logs_list_until_final logs_list w1 0)
      as (level & msg & Hlevel & ->).
    { rewrite Hnr. lia. }
    { intros i Hi. lia. }
    { rewrite Ht1, Hall. discriminate. }
    cbn [seq map after_failed_tries].
    set (w2 := emit (Log level msg)
                 (posted logs_list
                    (emit (Log DEBUG (StartingToDrain (length logs_list))) w1))).
    destruct (IH w2) as (w' & Heq & Hempty & Hdel & Hposts & Hsleeps & Hwrites
                         & Hnow & Hfiles).
    { intros k. simpl. rewrite Ht1. apply Hall. }
    { simpl. rewrite Hnr. exact Hn. }
    { simpl. apply (f_equal (@length _)) in Hsplit.
      rewrite length_app in Hsplit. simpl in Hsplit, Hlen.
      assert (logs_list <> []) as Hlogs by (apply Hne; discriminate).
      destruct logs_list; [congruence|]. simpl in Hsplit. lia. }
    exists w'. split; [exact Heq|]. split; [exact Hempty|].
    rewrite (bulks_depend_on_queue fuel w2 w1) in Hdel, Hposts by reflexivity.
    simpl in Hdel, Hposts, Hsleeps, Hwrites, Hnow, Hfiles.
    rewrite Htr1, !delivered_bodies_app in Hdel.
    rewrite Htr1, !count_events_app in Hposts, Hsleeps, Hwrites.
    simpl in Hdel, Hposts, Hsleeps, Hwrites.
    rewrite Ht1, Hall in Hdel.
    assert (is_post (Log level msg) = false /\ is_sleep (Log level msg) = false
            /\ is_write (Log level msg) = false) as (H1 & H2 & H3) by auto.
    simpl. rewrite Hdel, Hposts, Hsleeps, Hwrites, Hnow, Hfiles, Hn1, Hf1.
    rewrite <- !app_assoc. simpl.
    repeat split; lia.
Qed.

(** A flush against any transport.  It returns; what can leave it is
    only the [OSError] of a backup, and when it returns normally the
    queue is empty.  It makes at most [number_of_retries] POSTs per
    queued entry, each to the sender's URL with its two headers and its
    timeout, never sleeps more often than it posts, starts no thread,
    changes nothing of the sender but the queue, and only ever adds to
    the end of files. *)
Theorem flush_is_bounded (w : World) :
  exists r w' evs,
    flush w = (r, w') /\
    trace w' = trace w ++ evs /\
    (r = Ok tt \/ exists filename, r = Raise (OSError filename)) /\
    (r = Ok tt -> self.queue (sender w') = []) /\
    (count_events is_post evs <=
     Z.to_nat (self.number_of_retries (sender w))
     * length (self.queue (sender w)))%nat /\
    (count_events is_sleep evs <= count_events is_post evs)%nat /\
    Forall (request_of (sender w)) (post_requests evs) /\
    count_events is_thread_start evs = 0%nat /\
    files_grow (files w) (files w') /\
    same_surroundings w w'.
Proof.
  unfold flush, _flush_queue.
  destruct (while_queue_not_empty_events (length (self.queue (sender w))) w)
    as (r & w' & evs & Heq & Htr & _ & Hts & Hshape & Hlen & Hposts & Hsleeps
        & Hgrow & _).
  { lia. }
  destruct (while_queue_not_empty_spec (length (self.queue (sender w))) w)
    as (r' & w'' & _ & _ & Heq' & Hr & Hsur & _ & _ & _ & _ & Hempty & _).
  { lia. }
  rewrite Heq in Heq'. inversion Heq'; subst r' w''.
  exists r, w', evs.
  split; [exact Heq|]. split; [exact Htr|]. split; [exact Hr|].
  split; [exact Hempty|]. split; [nia|]. auto 8.
Qed.

(** Without backup a flush cannot fail: with [self.backup_logs] off it
    returns normally whatever the endpoint does, leaves the queue empty,
    writes no file and logs no error; what was not accepted is lost
    without a trace on disk. *)
Theorem flush_without_backup_never_raises (w : World) :
  self.backup_logs (sender w) = false ->
  exists w' evs,
    flush w = (Ok tt, w') /\
    trace w' = trace w ++ evs /\
    self.queue (sender w') = [] /\
    count_events is_write evs = 0%nat /\
    count_events is_error_log evs = 0%nat /\
    files w' = files w.
Proof.
  intros Hbackup. unfold flush, _flush_queue.
  destruct (while_queue_not_empty_events (length (self.queue (sender w))) w)
    as (r & w' & evs & Heq & Htr & _ & _ & _ & _ & _ & _ & _ & Hnb & _).
  { lia. }
  destruct (Hnb Hbackup) as (-> & Hwr & Herr & Hfiles).
  destruct (while_queue_not_empty_spec (length (self.queue (sender w))) w)
    as (r' & w'' & _ & _ & Heq' & _ & _ & _ & _ & _ & _ & Hempty & _).
  { lia. }
  rewrite Heq in Heq'. inversion Heq'; subst r' w''.
  exists w', evs. repeat split; auto.
Qed.

(** A flush leaves the world exactly as it was if and only if the queue
    is empty: on an empty queue nothing is sent, logged or slept, and on
    any other queue the trace grows. *)
Theorem flush_is_noop_iff_queue_empty (w : World) :
  flush w = (Ok tt, w) <-> self.queue (sender w) = [].
Proof.
  unfold flush, _flush_queue. split.
  - intros Hsame.
    destruct (while_queue_not_empty_events (length (self.queue (sender w))) w)
      as (r & w' & evs & Heq & Htr & Hgrows & _).
    { lia. }
    rewrite Hsame in Heq. inversion Heq; subst r w'.
    destruct (self.queue (sender w)) as [|e q]; [reflexivity|].
    exfalso. apply Hgrows; [discriminate|].
    rewrite <- (app_nil_r (trace w)) in Htr at 1.
    apply app_inv_head in Htr. congruence.
  - intros Hq. rewrite Hq. simpl. rewrite Hq. reflexivity.
Qed.

(** A flush against an endpoint that accepts every POST (with at least
    one try allowed): one POST per bulk of the queue's partition, in
    order, no sleep, no write, the clock and the files untouched, the
    queue empty afterwards.  When no entry has a newline in it, reading
    the accepted bodies line by line gives back the bulks, and so the
    queue, entry by entry. *)
Theorem flush_sends_each_bulk_once (w : World) :
  (forall k, reading (transport w k) = Accepted) ->
  (1 <= self.number_of_retries (sender w))%Z ->
  let q := self.queue (sender w) in
  let bs := bulks (length q) w in
  exists w' sent,
    flush w = (Ok tt, w') /\
    self.queue (sender w') = [] /\
    delivered_bodies (trace w') = delivered_bodies (trace w) ++ sent /\
    sent = map (join newline) bs /\
    count_events is_post (trace w') =
      (count_events is_post (trace w) + length bs)%nat /\
    count_events is_sleep (trace w') = count_events is_sleep (trace w) /\
    count_events is_write (trace w') = count_events is_write (trace w) /\
    now w' = now w /\ files w' = files w /\
    (Forall (fun e => one_line e = true) q ->
     concat (map lines_of sent) = q).
Proof.
  intros Hall Hn q bs. unfold flush, _flush_queue.
  destruct (while_queue_not_empty_accepted (length q) w Hall Hn)
    as (w' & Heq & Hempty & Hdel & Hposts & Hsleeps & Hwrites & Hnow & Hfiles).
  { subst q. lia. }
  exists w', (map (join newline) bs).
  fold q. repeat split; auto.
  intros Hone.
  destruct (bulks_spec (length q) w) as (Hconcat & Hbs & _).
  { subst q. lia. }
  fold bs q in Hconcat, Hbs.
  rewrite lines_of_joined_bulks.
  - exact Hconcat.
  - eapply Forall_impl; [exact Hbs|]. intros b [Hb _]. exact Hb.
  - rewrite Hconcat. exact Hone.
Qed.

(** *** append, and calls in sequence *)









(** *** The drain loop as a whole *)

(** The drain loop ends only at the main thread's end: run for [fuel]
    passes, it has either returned, right after the first liveness
    check that found the main thread gone and after one pass per check,
    or it is still running, every check so far having found the main
    thread alive.  It never ends with an exception. *)
Theorem drain_queue_ends_only_at_quit (fuel : nat) (w : World) :
  exists r w',
    _drain_queue fuel w = (r, w') /\
    main_thread w' = main_thread w /\
    ((r = Ok tt /\
      exists k, (k < fuel)%nat /\
        checks w' = (checks w + S k)%nat /\
        main_thread w (checks w + k)%nat = false /\
        forall i, (i < k)%nat -> main_thread w (checks w + i)%nat = true) \/
     (r = OutOfFuel /\
      checks w' = (checks w + fuel)%nat /\
      forall i, (i < fuel)%nat -> main_thread w (checks w + i)%nat = true)).
Proof.
  unfold _drain_queue. revert w.
  induction fuel as [|fuel IH]; intros w.
  - exists OutOfFuel, w. split; [reflexivity|]. split; [reflexivity|].
    right. repeat split; try lia.
  - rewrite while_not_last_try_unfold. cbv zeta.
    destruct (main_thread w (checks w)) eqn:Hfirst.
    + destruct (guarded_flush_returns (set_checks (S (checks w)) w))
        as (w1 & -> & (Ht & Hm & Ho & Hs) & Hc).
      simpl in Hm, Hc.
      destruct (IH (slept (self.logs_drain_timeout (sender w1)) w1))
        as (r & w' & Heq & Hmain & Hcases).
      simpl in Hmain, Hcases. rewrite Hm, Hc in Hcases. rewrite Hm in Hmain.
      exists r, w'. split; [exact Heq|]. split; [exact Hmain|].
      destruct Hcases as [(Hr & k & Hk & Hck & Hgone & Halive)
                         |(Hr & Hck & Halive)].
      * left. split; [exact Hr|]. exists (S k).
        split; [lia|]. split; [lia|].
        split; [replace (checks w + S k)%nat with (S (checks w) + k)%nat by lia;
                exact Hgone|].
        intros [|i] Hi; [rewrite Nat.add_0_r; exact Hfirst|].
        replace (checks w + S i)%nat with (S (checks w) + i)%nat by lia.
        apply Halive. lia.
      * right. split; [exact Hr|]. split; [lia|].
        intros [|i] Hi; [rewrite Nat.add_0_r; exact Hfirst|].
        replace (checks w + S i)%nat with (S (checks w) + i)%nat by lia.
        apply Halive. lia.
    + destruct (guarded_flush_returns
                  (emit (Log DEBUG IdentifiedQuitOfMainThread)
                        (set_checks (S (checks w)) w)))
        as (w' & -> & (Ht & Hm & Ho & Hs) & Hc).
      simpl in Hm, Hc.
      exists (Ok tt), w'. split; [reflexivity|]. split; [exact Hm|].
      left. split; [reflexivity|]. exists 0%nat.
      split; [lia|]. split; [lia|].
      split; [rewrite Nat.add_0_r; exact Hfirst|]. intros i Hi. lia.
Qed.

Lemma guarded_flush_of_empty_queue w :
  self.queue (sender w) = [] ->
  try_except _flush_queue swallow w = (Ok tt, w).
Proof.
  intros Hq. unfold try_except, _flush_queue. rewrite Hq. simpl.
  rewrite Hq. reflexivity.
Qed.

(** An idle worker only sleeps: with an empty queue to which nothing is
    appended, the drain loop leaves in the trace one sleep of
    [logs_drain_timeout] per liveness check that found the main thread
    alive, then the line logged at its end, and nothing else: no POST,
    no file, and the clock moved by the sleeps alone. *)
Theorem idle_worker_only_sleeps (k extra : nat) (w : World) :
  self.queue (sender w) = [] ->
  (forall i, (i < k)%nat -> main_thread w (checks w + i)%nat = true) ->
  main_thread w (checks w + k)%nat = false ->
  exists w',
    _drain_queue (S k + extra) w = (Ok tt, w') /\
    trace w' = trace w
               ++ repeat (Sleep (self.logs_drain_timeout (sender w))) k
               ++ [Log DEBUG IdentifiedQuitOfMainThread] /\
    now w' = (now w + N.of_nat k * self.logs_drain_timeout (sender w))%N /\
    files w' = files w /\
    sender w' = sender w.
Proof.
  unfold _drain_queue. revert w.
  induction k as [|k IH]; intros w Hq Halive Hgone.
  - rewrite Nat.add_0_r in Hgone.
    rewrite while_not_last_try_unfold. cbv zeta. rewrite Hgone.
    rewrite guarded_flush_of_empty_queue by exact Hq.
    eexists. split; [reflexivity|]. simpl. repeat split; lia.
  - change (S (S k) + extra)%nat with (S (S k + extra)).
    rewrite while_not_last_try_unfold. cbv zeta.
    pose proof (Halive 0%nat ltac:(lia)) as H0. rewrite Nat.add_0_r in H0.
    rewrite H0.
    rewrite guarded_flush_of_empty_queue by exact Hq.
    cbn [sender set_checks].
    destruct (IH (slept (self.logs_drain_timeout (sender w))
                        (set_checks (S (checks w)) w)))
      as (w' & Heq & Htr & Hnow & Hfiles & Hsender).
    { exact Hq. }
    { intros i Hi. simpl. rewrite <- Nat.add_succ_r. apply Halive. lia. }
    { simpl. rewrite <- Nat.add_succ_r. exact Hgone. }
    exists w'. split; [exact Heq|].
    simpl in Htr, Hnow, Hfiles, Hsender.
    rewrite Htr, Hnow, Hfiles, Hsender. simpl.
    rewrite <- app_assoc. simpl. repeat split; lia.
Qed.

(** *** One delivery, whatever the endpoint does *)


(** A backup into a new file reads back: when every try of a bulk
    fails, backup is on, and the file named after the current second
    does not exist yet and can be opened, the file afterwards holds the
    bulk's entries, one per line and in order (for a bulk of at least
    one entry, none with a newline in it), and no other file is
    touched. *)
Theorem backup_file_reads_back (logs_list : list LogEntry) (w : World) :
  let n := self.number_of_retries (sender w) in
  let d := self.retry_timeout (sender w) in
  let filename := backup_file (now w + N.of_nat (Z.to_nat n) * d) in
  self.backup_logs (sender w) = true ->
  (forall k, reading (transport w k) = Transient) ->
  open_denied w filename = false ->
  files w !! filename = None ->
  logs_list <> [] ->
  Forall (fun e => one_line e = true) logs_list ->
  let w' := snd (drain_logs_list logs_list w) in
  lines_of (file_contents (files w') filename) = logs_list /\
  forall other, other <> filename -> files w' !! other = files w !! other.
Proof.
  intros n d filename Hbackup Hall Hopen Hnew Hne Hone.
  cbn zeta.
  rewrite drain_logs_list_all_fail by (intros; apply Hall).
  cbn zeta. fold n d. rewrite Hbackup.
  match goal with |- context [after_failed_tries ?l ?dd ?t ?w0] =>
    destruct (after_failed_tries_frame l dd t w0)
      as (Hs & Hf & Ht & Hm & Ho & Hc & Hp & Hnow & Htr);
    set (tried := after_failed_tries l dd t w0) in *
  end.
  cbn zeta in *. rewrite length_range in Hnow. simpl in Hs, Hf, Ho, Hnow, Htr.
  rewrite backup_logs_unfold. cbn zeta. cbn [now emit open_denied files].
  rewrite Hnow, Ho, Hf. fold filename. rewrite Hopen. cbn [snd files emit set_files].
  split.
  - unfold file_contents. rewrite lookup_insert_eq, Hnew.
    apply lines_of_join_entries; assumption.
  - intros other Hother. apply lookup_insert_ne. congruence.
Qed.

End Proofs.

(** ** The theorems at concrete inputs *)

Lemma retry_exhaustion_witness :
  (1 <= self.number_of_retries (sender busy_world))%Z /\
  (forall k, reading (transport busy_world k) = Transient) /\
  Z.of_nat (count_events is_post
              (trace (snd (drain_logs_list ["1"; "2"] busy_world)))) = 4%Z.
Proof.
  assert (H1 : (1 <= self.number_of_retries (sender busy_world))%Z)
    by (vm_compute; discriminate).
  assert (H2 : forall k, reading (transport busy_world k) = Transient)
    by (intros k; reflexivity).
  destruct (retry_exhaustion ["1"; "2"] busy_world H1 H2) as (w1 & _ & _ & _ & H).
  split; [exact H1|]. split; [exact H2|]. exact H.
Defined.

Lemma no_retry_on_400_401_witness :
  exists w',
    drain_logs_list ["1"] rejecting_world = (Ok tt, w') /\
    count_events is_post (trace w') = 1%nat /\
    count_events is_write (trace w') = 0%nat.
Proof.
  destruct (no_retry_on_400_401 ["1"] rejecting_world (mkResponse 400 "malformed"))
    as (w' & Heq & _ & _ & Hposts & Hwrites & _).
  - vm_compute; discriminate.
  - reflexivity.
  - left; reflexivity.
  - exists w'. split; [exact Heq|]. split; [exact Hposts|exact Hwrites].
Defined.


Lemma shutdown_drain_witness :
  main_thread closing_world (checks closing_world) = false /\
  exists w', _drain_queue 1 closing_world = (Ok tt, w') /\ checks w' = 1%nat.
Proof.
  split; [reflexivity|].
  destruct (shutdown_drain 0 closing_world) as (_ & w' & Heq & Hc).
  - reflexivity.
  - exists w'. split; [exact Heq|exact Hc].
Defined.

Lemma append_is_fire_and_forget_witness :
  exists w',
    append (PyList [PyInt 1; PyBool true; PyNone]) busy_world = (Ok tt, w') /\
    self.queue (sender w') = ["[1, true, null]"] /\
    count_events is_post (trace w') = 0%nat.
Proof.
  destruct (append_is_fire_and_forget (PyList [PyInt 1; PyBool true; PyNone])
              busy_world)
    as (Hreturns & _ & _).
  destruct (Hreturns "[1, true, null]") as (w' & Heq & Hq & _ & _ & Hposts & _).
  - reflexivity.
  - exists w'. split; [exact Heq|]. split; [exact Hq|exact Hposts].
Defined.

(** C6, as stated, fails: a message holding a set is not encoded, and
    the [TypeError] of [json.dumps] reaches the caller of [append]. *)
Lemma append_raises_to_its_caller :
  fst (append (PyDict [(PyStr "tags", PyObject "set")]) busy_world)
  = Raise (TypeError "Object of type set is not JSON serializable").
Proof. reflexivity. Qed.

(** Other exceptions of the encoder reach the caller the same way: the
    [ValueError] for an [int] of more than 4300 digits, the
    [RecursionError] for a message nested deeper than the interpreter
    allows.  A tuple is encoded as a list. *)
Lemma append_raises_ValueError_for_long_int :
  fst (append (PyInt (10 ^ 4300)) busy_world)
  = Raise (ValueError "Exceeds the limit (4300 digits) for integer string conversion; use sys.set_int_max_str_digits() to increase the limit") /\
  fst (append (PyInt (10 ^ 4300 - 1)) busy_world) = Ok tt.
Proof. vm_compute. split; reflexivity. Qed.

Lemma iterencode_too_deep default budget :
  iterencode default budget (nested budget) = inl too_deep.
Proof.
  induction budget as [|budget IH]; [reflexivity|].
  cbn [nested iterencode]. rewrite IH. reflexivity.
Qed.

Lemma append_raises_RecursionError_for_deep_nesting :
  fst (append (nested recursion_budget) busy_world) = Raise too_deep /\
  fst (append (nested 10) busy_world) = Ok tt.
Proof.
  split; [|reflexivity].
  rewrite append_unfold. unfold dumps. cbn [JSONEncoder_encode cpython].
  unfold cpython_encode. rewrite iterencode_too_deep. reflexivity.
Qed.

Lemma append_encodes_tuple_as_list :
  self.queue (sender (snd (append (PyTuple [PyInt 1; PyNone]) busy_world)))
  = ["[1, null]"].
Proof. reflexivity. Qed.


Lemma backup_failure_reaches_flush_caller_witness :
  exists w1,
    flush read_only_world
    = (Raise (OSError "logzio-failures-04112026-080008.txt"), w1) /\
    self.queue (sender w1) = [] /\
    try_except _flush_queue swallow read_only_world
    = (Ok tt, emit (Log DEBUG (UnexpectedException
                                 (OSError "logzio-failures-04112026-080008.txt")))
                   w1).
Proof.
  destruct (backup_failure_reaches_flush_caller read_only_world)
    as (w1 & Hflush & Hq & _ & Hguard & _).
  - discriminate.
  - reflexivity.
  - intros k; reflexivity.
  - reflexivity.
  - exists w1. split; [exact Hflush|]. split; [exact Hq|exact Hguard].
Defined.

(** C8, as stated, fails: the [OSError] of a backup that cannot be
    opened reaches a direct caller of [flush]. *)
Lemma flush_raises_when_backup_cannot_be_written :
  fst (flush read_only_world)
  = Raise (OSError "logzio-failures-04112026-080008.txt").
Proof. vm_compute. reflexivity. Qed.

(** C7, at a failing input: two bulks are backed up within one second
    (one try, no pause, endpoint unreachable).  Both writes go to the
    same file, and as the first left no newline at its end, the file is
    one line holding both entries. *)
Theorem backup_collision_merges_lines :
  let w := snd (append_flush_twice offline_world) in
  let written := file_contents (files w) "logzio-failures-04112026-080000.txt" in
  count_events is_write (trace w) = 2%nat /\
  written = "12" /\
  lines_of written = ["12"] /\
  lines_of (join newline ["1"; "2"]) = ["1"; "2"].
Proof. vm_compute. repeat split; reflexivity. Qed.

(** C9, at a failing input: with two tries that both fail there are two
    sleeps, the second after the last try and before the backup. *)
Theorem sleep_after_last_failed_try :
  let w := snd (drain_logs_list ["1"] two_tries_world) in
  count_events is_sleep (trace w) = 2%nat /\
  now w = (now two_tries_world + 4)%N /\
  trace w =
  [ThreadStart;
   Log DEBUG (StartingToDrain 1);
   Post (request_for (sender two_tries_world) ["1"]) service_unavailable;
   Log INFO (GotStatus 503 1 2 "busy");
   Sleep 2;
   Post (request_for (sender two_tries_world) ["1"]) service_unavailable;
   Log INFO (GotStatus 503 2 2 "busy");
   Sleep 2;
   Log ERROR (CouldNotSend 2);
   Log INFO (BackingUpYourLogs "04112026-080004");
   Write "logzio-failures-04112026-080004.txt" "1"].
Proof. vm_compute. repeat split; reflexivity. Qed.

Lemma drain_queue_stops_at_quit_witness :
  exists w',
    _drain_queue 3
      (world_with 4 2 true (always ok_reply)
                  (fun k => (k <? 2)%nat) (any_file false))
    = (Ok tt, w') /\
    checks w' = 3%nat.
Proof.
  apply (drain_queue_stops_at_quit 2 0
           (world_with 4 2 true (always ok_reply)
                       (fun k => (k <? 2)%nat) (any_file false))).
  - intros i Hi. simpl.
    destruct i as [|[|i]]; [reflexivity|reflexivity|lia].
  - reflexivity.
Defined.

Lemma backup_appends_joined_bulk_witness :
  exists w',
    drain_logs_list ["1"; "2"] busy_world = (Ok tt, w') /\
    count_events is_write (trace w') = 1%nat /\
    files w' !! "logzio-failures-04112026-080008.txt"
    = Some (join newline ["1"; "2"]).
Proof.
  destruct (backup_appends_joined_bulk ["1"; "2"] busy_world)
    as (w' & Heq & Hwrites & Hfile).
  - reflexivity.
  - intros k; reflexivity.
  - reflexivity.
  - exists w'. split; [exact Heq|]. split; [exact Hwrites|exact Hfile].
Defined.

(** ** The further properties at concrete inputs *)

Lemma lines_of_join_witness :
  lines_of (join newline ["1"; "two"; "[3, null]"]) = ["1"; "two"; "[3, null]"] /\
  length (lines_of (join newline ["1"; "two"; "[3, null]"])) = 3%nat /\
  lines_of (join newline []) = [EmptyString].
Proof.
  apply (lines_of_join ["1"; "two"; "[3, null]"]).
  - discriminate.
  - repeat constructor.
Defined.

Lemma retry_until_final_reply_witness :
  exists w',
    drain_logs_list ["1"] recovering_world = (Ok tt, w') /\
    count_events is_post (trace w') = 3%nat /\
    count_events is_sleep (trace w') = 2%nat /\
    count_events is_write (trace w') = 0%nat /\
    delivered_bodies (trace w') = ["1"].
Proof.
  destruct (retry_until_final_reply ["1"] recovering_world 2)
    as (w' & Heq & Hposts & Hsleeps & Hwrites & _ & _ & _ & Hdel).
  - vm_compute. lia.
  - intros i Hi. destruct i as [|[|i]]; [reflexivity|reflexivity|lia].
  - discriminate.
  - exists w'. split; [exact Heq|]. split; [exact Hposts|].
    split; [exact Hsleeps|]. split; [exact Hwrites|exact Hdel].
Defined.

Lemma no_tries_no_post_witness :
  (self.number_of_retries (sender no_tries_world) <= 0)%Z /\
  count_events is_post (trace (snd (drain_logs_list ["1"] no_tries_world))) = 0%nat /\
  files (snd (drain_logs_list ["1"] no_tries_world))
    !! "logzio-failures-04112026-080000.txt" = Some "1".
Proof.
  assert (H : (self.number_of_retries (sender no_tries_world) <= 0)%Z)
    by (vm_compute; discriminate).
  destruct (no_tries_no_post ["1"] no_tries_world H)
    as (Hposts & _ & _ & _ & Hfile & _).
  split; [exact H|]. split; [exact Hposts|].
  exact (Hfile eq_refl eq_refl).
Defined.

Lemma flush_without_backup_never_raises_witness :
  exists w' evs,
    flush no_backup_world = (Ok tt, w') /\
    trace w' = trace no_backup_world ++ evs /\
    self.queue (sender w') = [] /\
    count_events is_write evs = 0%nat /\
    count_events is_error_log evs = 0%nat /\
    files w' = files no_backup_world.
Proof.
  apply (flush_without_backup_never_raises no_backup_world).
  reflexivity.
Defined.

Lemma flush_sends_each_bulk_once_witness :
  exists w' sent,
    flush loaded_world = (Ok tt, w') /\
    delivered_bodies (trace w') = sent /\
    count_events is_post (trace w') = 1%nat /\
    concat (map lines_of sent) = self.queue (sender loaded_world).
Proof.
  destruct (flush_sends_each_bulk_once loaded_world)
    as (w' & sent & Heq & _ & Hdel & _ & Hposts & _ & _ & _ & _ & Hlines).
  - intros k; reflexivity.
  - vm_compute; discriminate.
  - exists w', sent. split; [exact Heq|]. split; [exact Hdel|].
    split; [exact Hposts|]. apply Hlines.
    repeat constructor.
Defined.

Lemma idle_worker_only_sleeps_witness :
  exists w',
    _drain_queue 3 idle_world = (Ok tt, w') /\
    trace w' = trace idle_world
               ++ [Sleep 5; Sleep 5; Log DEBUG IdentifiedQuitOfMainThread] /\
    now w' = (now idle_world + 10)%N.
Proof.
  destruct (idle_worker_only_sleeps 2 0 idle_world)
    as (w' & Heq & Htr & Hnow & _).
  - reflexivity.
  - intros i Hi. destruct i as [|[|i]]; [reflexivity|reflexivity|lia].
  - reflexivity.
  - exists w'. split; [exact Heq|]. split; [exact Htr|exact Hnow].
Defined.

Lemma backup_file_reads_back_witness :
  lines_of (file_contents (files (snd (drain_logs_list ["1"; "2"] busy_world)))
                          "logzio-failures-04112026-080008.txt")
  = ["1"; "2"].
Proof.
  destruct (backup_file_reads_back ["1"; "2"] busy_world) as (Hlines & _).
  - reflexivity.
  - intros k; reflexivity.
  - reflexivity.
  - reflexivity.
  - discriminate.
  - repeat constructor.
  - exact Hlines.
Defined.
